(** * server/webrtctransport.go: the session-level WebRTC transport

    A shallow embedding of [WebRTCTransport]: its track registry, the public
    operations [WriteRTP], [WriteRTCP], [RemoveTrack], [AddTrack],
    [LocalTracks], [RemoteTracks], the engine callback [handleTrack] with the
    receive pump it starts, the feedback pump started by [AddTrack], and the
    goroutine started by [NewWebRTCTransport] that closes the shared channels.

    The network engine (pion), the signaller, the data transceiver and the
    metrics registry are collaborators of this file.  The engine is an
    interface ([NetworkEngine]); its answers are not fixed here.  Logging has
    no influence on control flow and is left out. *)

From stdpp Require Import base numbers option list gmap strings.

Open Scope Z_scope.

(** ** Values *)

(** [uint32]: only used as a registry key, never in arithmetic. *)
Abbreviation uint32 := Z (only parsing).

(** Go [error] values this file creates or tests for. *)
Inductive error : Type :=
| io_EOF
| io_ErrClosedPipe
| engine_error (msg : string)
| Errorf_track_not_found (ssrc : uint32)
| Annotated (cause : error) (msg : string).

#[global] Instance error_eq_dec : EqDecision error.
Proof. solve_decision. Defined.

(** [errors.Annotate(err, msg)]: nil stays nil. *)
Definition errors_Annotate (err : option error) (msg : string) : option error :=
  match err with
  | None => None
  | Some e => Some (Annotated e msg)
  end.

Fixpoint errors_Cause (e : error) : error :=
  match e with
  | Annotated c _ => errors_Cause c
  | _ => e
  end.

(** Modelled from the spec: [errIs] is declared in another file of the
    package.  The spec only says that the engine "signals a distinguished
    no subscriber condition separately from hard errors"; the test is taken
    to look through annotations, and nil is never the target. *)
Definition errIs (err : option error) (target : error) : bool :=
  match err with
  | None => false
  | Some e => bool_decide (errors_Cause e = target)
  end.

(** A Go [(value, error)] pair of which exactly one side is meaningful. *)
Inductive res (A : Type) : Type :=
| Ok (a : A)
| Fail (e : error).
Arguments Ok {A} a.
Arguments Fail {A} e.

Inductive RTPCodecType : Type :=
| RTPCodecTypeUnknown
| RTPCodecTypeAudio
| RTPCodecTypeVideo.

Inductive RTPTransceiverDirection : Type :=
| RTPTransceiverDirectionSendrecv
| RTPTransceiverDirectionSendonly
| RTPTransceiverDirectionRecvonly
| RTPTransceiverDirectionInactive.

Record TrackInfo : Type := mkTrackInfo {
  SSRC : uint32;
  ID : string;
  StreamID : string;
  Kind : RTPCodecType;
  Mid : string
}.

Inductive TrackEventType : Type :=
| TrackEventTypeAdd
| TrackEventTypeRemove.

Record TrackEvent : Type := mkTrackEvent {
  TrackEvent_TrackInfo : TrackInfo;
  Type_ : TrackEventType
}.

#[global] Instance RTPCodecType_eq_dec : EqDecision RTPCodecType.
Proof. solve_decision. Defined.
#[global] Instance TrackInfo_eq_dec : EqDecision TrackInfo.
Proof. solve_decision. Defined.
#[global] Instance TrackEventType_eq_dec : EqDecision TrackEventType.
Proof. solve_decision. Defined.
#[global] Instance TrackEvent_eq_dec : EqDecision TrackEvent.
Proof. solve_decision. Defined.

(** [*rtp.Packet]: what this file reads of it is the SSRC of its header and
    the result of [MarshalSize()]. *)
Record Packet : Type := mkPacket {
  Packet_SSRC : uint32;
  MarshalSize : Z;
  Payload : list Z
}.

(** [rtcp.Packet] is opaque to this file. *)
Definition rtcp_Packet : Type := list Z.

(** Engine objects are held by pointer; a pointer is a number and a nil
    pointer is [None]. *)
Definition RTPSender : Type := nat.
Definition RTPReceiver : Type := nat.
Definition RTPTransceiver : Type := nat.

Record RTPCodecCapability : Type := mkRTPCodecCapability {
  MimeType : string
}.

Definition MimeTypeVP8 : string := "video/VP8".

(** [*webrtc.TrackLocalStaticRTP], as built by [NewTrackLocalStaticRTP]. *)
Record TrackLocalStaticRTP : Type := mkTrackLocalStaticRTP {
  tl_codec : RTPCodecCapability;
  tl_id : string;
  tl_streamID : string
}.

(** [track.Kind()] of a local track follows the MIME type's prefix. *)
Definition TrackLocal_Kind (t : TrackLocalStaticRTP) : RTPCodecType :=
  if String.prefix "audio/" (MimeType (tl_codec t)) then RTPCodecTypeAudio
  else if String.prefix "video/" (MimeType (tl_codec t)) then RTPCodecTypeVideo
  else RTPCodecTypeUnknown.

(** [*webrtc.TrackRemote]: the accessors [SSRC()], [ID()], [StreamID()],
    [Kind()] and the pointer the engine reads from. *)
Record TrackRemote : Type := mkTrackRemote {
  tr_ptr : nat;
  tr_SSRC : uint32;
  tr_ID : string;
  tr_StreamID : string;
  tr_Kind : RTPCodecType
}.

Record localTrackInfo : Type := mklocalTrackInfo {
  lti_trackInfo : TrackInfo;
  lti_transceiver : option RTPTransceiver;
  lti_sender : RTPSender;
  lti_track : TrackLocalStaticRTP
}.

Record remoteTrackInfo : Type := mkremoteTrackInfo {
  rti_trackInfo : TrackInfo;
  rti_transceiver : option RTPTransceiver;
  rti_receiver : RTPReceiver;
  rti_track : TrackRemote
}.

(** ** Collaborators *)

(** The network engine.  [E] is the state of the peer connection and of the
    objects reached through it; every call that can change it returns the new
    state. *)
Class NetworkEngine (E : Type) : Type := {
  (** the error of [webrtc.NewTrackLocalStaticRTP], nil when it builds the track *)
  NewTrackLocalStaticRTP_err : RTPCodecCapability → string → string → E → option error;
  pc_AddTrack : TrackLocalStaticRTP → E → res RTPSender * E;
  pc_RemoveTrack : RTPSender → E → option error * E;
  pc_WriteRTCP : list rtcp_Packet → E → option error * E;
  pc_GetTransceivers : E → list RTPTransceiver;
  transceiver_Sender : RTPTransceiver → E → option RTPSender;
  transceiver_Receiver : RTPTransceiver → E → option RTPReceiver;
  transceiver_Mid : RTPTransceiver → E → string;
  track_WriteRTP : TrackLocalStaticRTP → Packet → E → option error * E;
  sender_ReadRTCP : RTPSender → E → res (list rtcp_Packet) * E;
  track_ReadRTP : TrackRemote → E → res Packet * E
}.

(** Modelled from the spec: the signaller is declared in another file.  Its
    initiator flag, its one-shot close notification, and the calls this file
    makes on it ("trigger a renegotiation; request a receive-only transceiver
    of a given media kind"). *)
Inductive SignallerCall : Type :=
| Negotiate
| SendTransceiverRequest (kind : RTPCodecType) (direction : RTPTransceiverDirection).

Record Signaller : Type := mkSignaller {
  Initiator : bool;
  CloseChannel_closed : bool;
  signaller_calls : list SignallerCall
}.

(** Modelled from the spec: the metrics are package-level collectors declared
    in another file, "counts and byte totals for packets sent/received, total
    and currently-active track gauges, and a duration histogram".  Every
    amount this file adds is a whole number; a collector holds the exact sum.
    Of the histogram only the number of samples is kept. *)
Inductive Metric : Type :=
| prometheusRTPPacketsSent
| prometheusRTPPacketsSentBytes
| prometheusRTPPacketsReceived
| prometheusRTPPacketsReceivedBytes
| prometheusRTCPPacketsSent
| prometheusRTCPPacketsReceived
| prometheusWebRTCTracksTotal
| prometheusWebRTCTracksActive
| prometheusWebRTCTracksDuration.

Record Metrics : Type := mkMetrics {
  RTPPacketsSent : Z;
  RTPPacketsSentBytes : Z;
  RTPPacketsReceived : Z;
  RTPPacketsReceivedBytes : Z;
  RTCPPacketsSent : Z;
  RTCPPacketsReceived : Z;
  WebRTCTracksTotal : Z;
  WebRTCTracksActive : Z;
  WebRTCTracksDuration : Z
}.

Definition Metrics_zero : Metrics := mkMetrics 0 0 0 0 0 0 0 0 0.

Definition metric_Add (m : Metric) (v : Z) (ms : Metrics) : Metrics :=
  let '(mkMetrics a b c d e f g h i) := ms in
  match m with
  | prometheusRTPPacketsSent => mkMetrics (a + v) b c d e f g h i
  | prometheusRTPPacketsSentBytes => mkMetrics a (b + v) c d e f g h i
  | prometheusRTPPacketsReceived => mkMetrics a b (c + v) d e f g h i
  | prometheusRTPPacketsReceivedBytes => mkMetrics a b c (d + v) e f g h i
  | prometheusRTCPPacketsSent => mkMetrics a b c d (e + v) f g h i
  | prometheusRTCPPacketsReceived => mkMetrics a b c d e (f + v) g h i
  | prometheusWebRTCTracksTotal => mkMetrics a b c d e f (g + v) h i
  | prometheusWebRTCTracksActive => mkMetrics a b c d e f g (h + v) i
  | prometheusWebRTCTracksDuration => mkMetrics a b c d e f g h (i + v)
  end.

Definition metric_Inc (m : Metric) : Metrics → Metrics := metric_Add m 1.
Definition metric_Dec (m : Metric) : Metrics → Metrics := metric_Add m (-1).
Definition metric_Observe (m : Metric) : Metrics → Metrics := metric_Add m 1.

(** ** Channels

    The three shared channels are made with [make(chan T)]: no buffer, a send
    completes by handing its value to a receiver.  A channel is modelled by
    whether it has been closed and by the values receivers have taken from
    it, oldest first. *)
Record chan (A : Type) : Type := mkchan {
  chan_closed : bool;
  chan_received : list A
}.
Arguments mkchan {A} _ _.
Arguments chan_closed {A} _.
Arguments chan_received {A} _.

Definition make_chan {A : Type} : chan A := mkchan false [].

(** [ch <- v] with a receiver ready; [None] is the run-time panic of a send on
    a closed channel. *)
Definition chan_send {A : Type} (v : A) (ch : chan A) : option (chan A) :=
  if chan_closed ch then None
  else Some (mkchan false (chan_received ch ++ [v])).

(** [close(ch)]; [None] is the panic of closing a closed channel. *)
Definition chan_close {A : Type} (ch : chan A) : option (chan A) :=
  if chan_closed ch then None
  else Some (mkchan true (chan_received ch)).

(** ** Goroutines

    Each goroutine of the file is a program counter over the statements at
    which it can be interleaved with the others. *)

(** The goroutine started at the end of [NewWebRTCTransport]. *)
Inductive closer_pc : Type :=
| CL_waitClose               (* <-signaller.CloseChannel() *)
| CL_wgWait                  (* transport.wg.Wait() *)
| CL_dataTransceiverClose    (* transport.dataTransceiver.Close() *)
| CL_closeRtp                (* close(transport.rtpCh) *)
| CL_closeRtcp               (* close(transport.rtcpCh) *)
| CL_closeTrackEvents        (* close(transport.trackEventsCh) *)
| CL_exited.

(** One call of [handleTrack] by the engine, followed by the receive pump it
    starts.  The [go] statement is the last statement of [handleTrack], so the
    callback's goroutine and the pump never run at the same time and one
    program counter covers both. *)
Inductive remote_pc : Type :=
| HT_entry                   (* trackInfo, metrics, transceiver, addRemoteTrack *)
| HT_sendAdd                 (* p.trackEventsCh <- TrackEvent{trackInfo, Add} *)
| HT_go                      (* p.wg.Add(1); go func() {...}() *)
| RP_read                    (* pkt, _, err := track.ReadRTP() *)
| RP_send (pkt : Packet)     (* p.rtpCh <- pkt *)
| RP_deferred_remove         (* p.removeRemoteTrack(trackInfo.SSRC) *)
| RP_deferred_send           (* p.trackEventsCh <- TrackEvent{trackInfo, Remove} *)
| RP_deferred_Done           (* p.wg.Done(); metrics *)
| RP_exited.

Record remoteThread : Type := mkremoteThread {
  rt_track : TrackRemote;
  rt_receiver : RTPReceiver;
  rt_pc : remote_pc
}.

(** The goroutine started by [AddTrack]. *)
Inductive feedback_pc : Type :=
| FP_read                              (* rtcpPackets, _, err := sender.ReadRTCP() *)
| FP_send (pending : list rtcp_Packet) (* p.rtcpCh <- rtcpPacket, for each *)
| FP_exited.                           (* after the deferred p.wg.Done() *)

Record feedbackPump : Type := mkfeedbackPump {
  fp_sender : RTPSender;
  fp_pc : feedback_pc
}.

(** Run-time panics that end the process. *)
Inductive Panic : Type :=
| panic_send_on_closed_channel
| panic_close_of_closed_channel
| panic_negative_WaitGroup_counter.

#[global] Instance Panic_eq_dec : EqDecision Panic.
Proof. solve_decision. Defined.

Section Transport.
Context {E : Type} `{!NetworkEngine E}.

(** ** The transport and its surroundings

    The fields of [WebRTCTransport] that the operations use ([mu] is
    implicit: every access to the two maps below is one atomic step), the
    collaborators, and the goroutines.  The track-event channel records with
    each event the index of the [handleTrack] call that sent it; receivers see
    the event only. *)
Record State : Type := mkState {
  wg : nat;
  trackEventsCh : chan (nat * TrackEvent);
  rtpCh : chan Packet;
  rtcpCh : chan rtcp_Packet;
  localTracks : gmap Z localTrackInfo;
  remoteTracks : gmap Z remoteTrackInfo;
  peerConnection : E;
  signaller : Signaller;
  dataTransceiver_closed : bool;
  metrics : Metrics;
  closer : closer_pc;
  remoteThreads : list remoteThread;
  feedbackPumps : list feedbackPump;
  panicked : option Panic
}.

(** Field updates: [upd_f g s] is [s] with field [f] replaced by [g (f s)]. *)
Definition upd_wg (g : nat → nat)
    (s : State) : State :=
  let '(mkState x0 x1 x2 x3 x4 x5 x6 x7 x8 x9 x10 x11 x12 x13) := s in
  mkState (g x0) x1 x2 x3 x4 x5 x6 x7 x8 x9 x10 x11 x12 x13.
Definition upd_trackEventsCh (g : chan (nat * TrackEvent) → chan (nat * TrackEvent))
    (s : State) : State :=
  let '(mkState x0 x1 x2 x3 x4 x5 x6 x7 x8 x9 x10 x11 x12 x13) := s in
  mkState x0 (g x1) x2 x3 x4 x5 x6 x7 x8 x9 x10 x11 x12 x13.
Definition upd_rtpCh (g : chan Packet → chan Packet)
    (s : State) : State :=
  let '(mkState x0 x1 x2 x3 x4 x5 x6 x7 x8 x9 x10 x11 x12 x13) := s in
  mkState x0 x1 (g x2) x3 x4 x5 x6 x7 x8 x9 x10 x11 x12 x13.
Definition upd_rtcpCh (g : chan rtcp_Packet → chan rtcp_Packet)
    (s : State) : State :=
  let '(mkState x0 x1 x2 x3 x4 x5 x6 x7 x8 x9 x10 x11 x12 x13) := s in
  mkState x0 x1 x2 (g x3) x4 x5 x6 x7 x8 x9 x10 x11 x12 x13.
Definition upd_localTracks (g : gmap Z localTrackInfo → gmap Z localTrackInfo)
    (s : State) : State :=
  let '(mkState x0 x1 x2 x3 x4 x5 x6 x7 x8 x9 x10 x11 x12 x13) := s in
  mkState x0 x1 x2 x3 (g x4) x5 x6 x7 x8 x9 x10 x11 x12 x13.
Definition upd_remoteTracks (g : gmap Z remoteTrackInfo → gmap Z remoteTrackInfo)
    (s : State) : State :=
  let '(mkState x0 x1 x2 x3 x4 x5 x6 x7 x8 x9 x10 x11 x12 x13) := s in
  mkState x0 x1 x2 x3 x4 (g x5) x6 x7 x8 x9 x10 x11 x12 x13.
Definition upd_peerConnection (g : E → E)
    (s : State) : State :=
  let '(mkState x0 x1 x2 x3 x4 x5 x6 x7 x8 x9 x10 x11 x12 x13) := s in
  mkState x0 x1 x2 x3 x4 x5 (g x6) x7 x8 x9 x10 x11 x12 x13.
Definition upd_signaller (g : Signaller → Signaller)
    (s : State) : State :=
  let '(mkState x0 x1 x2 x3 x4 x5 x6 x7 x8 x9 x10 x11 x12 x13) := s in
  mkState x0 x1 x2 x3 x4 x5 x6 (g x7) x8 x9 x10 x11 x12 x13.
Definition upd_dataTransceiver_closed (g : bool → bool)
    (s : State) : State :=
  let '(mkState x0 x1 x2 x3 x4 x5 x6 x7 x8 x9 x10 x11 x12 x13) := s in
  mkState x0 x1 x2 x3 x4 x5 x6 x7 (g x8) x9 x10 x11 x12 x13.
Definition upd_metrics (g : Metrics → Metrics)
    (s : State) : State :=
  let '(mkState x0 x1 x2 x3 x4 x5 x6 x7 x8 x9 x10 x11 x12 x13) := s in
  mkState x0 x1 x2 x3 x4 x5 x6 x7 x8 (g x9) x10 x11 x12 x13.
Definition upd_closer (g : closer_pc → closer_pc)
    (s : State) : State :=
  let '(mkState x0 x1 x2 x3 x4 x5 x6 x7 x8 x9 x10 x11 x12 x13) := s in
  mkState x0 x1 x2 x3 x4 x5 x6 x7 x8 x9 (g x10) x11 x12 x13.
Definition upd_remoteThreads (g : list remoteThread → list remoteThread)
    (s : State) : State :=
  let '(mkState x0 x1 x2 x3 x4 x5 x6 x7 x8 x9 x10 x11 x12 x13) := s in
  mkState x0 x1 x2 x3 x4 x5 x6 x7 x8 x9 x10 (g x11) x12 x13.
Definition upd_feedbackPumps (g : list feedbackPump → list feedbackPump)
    (s : State) : State :=
  let '(mkState x0 x1 x2 x3 x4 x5 x6 x7 x8 x9 x10 x11 x12 x13) := s in
  mkState x0 x1 x2 x3 x4 x5 x6 x7 x8 x9 x10 x11 (g x12) x13.
Definition upd_panicked (g : option Panic → option Panic)
    (s : State) : State :=
  let '(mkState x0 x1 x2 x3 x4 x5 x6 x7 x8 x9 x10 x11 x12 x13) := s in
  mkState x0 x1 x2 x3 x4 x5 x6 x7 x8 x9 x10 x11 x12 (g x13).
Definition set_wg (v : nat) : State → State :=
  upd_wg (λ _, v).
Definition set_trackEventsCh (v : chan (nat * TrackEvent)) : State → State :=
  upd_trackEventsCh (λ _, v).
Definition set_rtpCh (v : chan Packet) : State → State :=
  upd_rtpCh (λ _, v).
Definition set_rtcpCh (v : chan rtcp_Packet) : State → State :=
  upd_rtcpCh (λ _, v).
Definition set_localTracks (v : gmap Z localTrackInfo) : State → State :=
  upd_localTracks (λ _, v).
Definition set_remoteTracks (v : gmap Z remoteTrackInfo) : State → State :=
  upd_remoteTracks (λ _, v).
Definition set_peerConnection (v : E) : State → State :=
  upd_peerConnection (λ _, v).
Definition set_signaller (v : Signaller) : State → State :=
  upd_signaller (λ _, v).
Definition set_dataTransceiver_closed (v : bool) : State → State :=
  upd_dataTransceiver_closed (λ _, v).
Definition set_metrics (v : Metrics) : State → State :=
  upd_metrics (λ _, v).
Definition set_closer (v : closer_pc) : State → State :=
  upd_closer (λ _, v).
Definition set_remoteThreads (v : list remoteThread) : State → State :=
  upd_remoteThreads (λ _, v).
Definition set_feedbackPumps (v : list feedbackPump) : State → State :=
  upd_feedbackPumps (λ _, v).
Definition set_panicked (v : option Panic) : State → State :=
  upd_panicked (λ _, v).

Definition panic (why : Panic) : State → State := set_panicked (Some why).

(** [p.wg.Add(1)] and [p.wg.Done()]; a counter below zero panics. *)
Definition wg_Add1 : State → State := upd_wg S.

Definition wg_Done (s : State) : State :=
  match wg s with
  | O => panic panic_negative_WaitGroup_counter s
  | S n => set_wg n s
  end.

Definition signaller_call (c : SignallerCall) : State → State :=
  upd_signaller
    (λ sg, mkSignaller (Initiator sg) (CloseChannel_closed sg) (signaller_calls sg ++ [c])).

Definition signaller_fire_close : State → State :=
  upd_signaller (λ sg, mkSignaller (Initiator sg) true (signaller_calls sg)).

(** ** Construction

    The transport built by [NewWebRTCTransport] once the data channel and the
    signaller exist: fresh channels, empty registries, and the closing
    goroutine waiting for the close notification. *)
Definition NewWebRTCTransport (initiator : bool) (peerConnection : E) : State :=
  {| wg := 0%nat;
     trackEventsCh := make_chan;
     rtpCh := make_chan;
     rtcpCh := make_chan;
     localTracks := ∅;
     remoteTracks := ∅;
     peerConnection := peerConnection;
     signaller := mkSignaller initiator false [];
     dataTransceiver_closed := false;
     metrics := Metrics_zero;
     closer := CL_waitClose;
     remoteThreads := [];
     feedbackPumps := [];
     panicked := None |}.

(** ** Operations *)

Definition WriteRTCP (packets : list rtcp_Packet) (s : State) : option error * State :=
  let '(err, pc1) := pc_WriteRTCP packets (peerConnection s) in
  let s := set_peerConnection pc1 s in
  let s := if err is None then upd_metrics (metric_Inc prometheusRTCPPacketsSent) s else s in
  (errors_Annotate err "write rtcp", s).

Definition WriteRTP (packet : Packet) (s : State) : (Z * option error) * State :=
  match localTracks s !! Packet_SSRC packet with
  | None => ((0, Some (Errorf_track_not_found (Packet_SSRC packet))), s)
  | Some pta =>
    let '(err, pc1) := track_WriteRTP (lti_track pta) packet (peerConnection s) in
    let s := set_peerConnection pc1 s in
    if errIs err io_ErrClosedPipe then ((0, None), s)
    else
      match err with
      | Some e => ((0, errors_Annotate (Some e) "write rtp"), s)
      | None =>
        let s := upd_metrics (metric_Inc prometheusRTPPacketsSent) s in
        let s := upd_metrics (metric_Add prometheusRTPPacketsSentBytes (MarshalSize packet)) s in
        ((MarshalSize packet, None), s)
      end
  end.

Definition RemoveTrack (ssrc : uint32) (s : State) : option error * State :=
  match localTracks s !! ssrc with
  | None => (Some (Errorf_track_not_found ssrc), s)
  | Some pta =>
    let s := upd_localTracks (delete ssrc) s in
    let '(err, pc1) := pc_RemoveTrack (lti_sender pta) (peerConnection s) in
    let s := set_peerConnection pc1 s in
    match err with
    | Some e => (errors_Annotate (Some e) "remove track", s)
    | None => (None, signaller_call Negotiate s)
    end
  end.

Definition NewTrackLocalStaticRTP (c : RTPCodecCapability) (id streamID : string) (pc : E)
  : res TrackLocalStaticRTP :=
  match NewTrackLocalStaticRTP_err c id streamID pc with
  | Some err => Fail err
  | None => Ok (mkTrackLocalStaticRTP c id streamID)
  end.

(** The loops over [p.peerConnection.GetTransceivers()]: the first
    transceiver whose sender (receiver) is the given one, nil if there is
    none. *)
Definition transceiver_of_sender (sender : RTPSender) (pc : E) : option RTPTransceiver :=
  List.find (λ tr, bool_decide (transceiver_Sender tr pc = Some sender))
            (pc_GetTransceivers pc).

Definition transceiver_of_receiver (receiver : RTPReceiver) (pc : E) : option RTPTransceiver :=
  List.find (λ tr, bool_decide (transceiver_Receiver tr pc = Some receiver))
            (pc_GetTransceivers pc).

(** [go func() { defer p.wg.Done(); for { ... } }()] of [AddTrack] *)
Definition go_feedbackPump (sender : RTPSender) : State → State :=
  upd_feedbackPumps (λ l, l ++ [mkfeedbackPump sender FP_read]).

Definition AddTrack (ssrc : uint32) (id streamId : string) (s : State) : option error * State :=
  let c := mkRTPCodecCapability MimeTypeVP8 in
  match NewTrackLocalStaticRTP c id streamId (peerConnection s) with
  | Fail err => (errors_Annotate (Some err) "new track", s)
  | Ok track =>
    match pc_AddTrack track (peerConnection s) with
    | (Fail err, pc1) => (errors_Annotate (Some err) "add track", set_peerConnection pc1 s)
    | (Ok sender, pc1) =>
      let s := set_peerConnection pc1 s in
      let s :=
        if Initiator (signaller s) then signaller_call Negotiate s
        else signaller_call
               (SendTransceiverRequest (TrackLocal_Kind track) RTPTransceiverDirectionRecvonly) s in
      let s := wg_Add1 s in
      let s := go_feedbackPump sender s in
      let transceiver := transceiver_of_sender sender (peerConnection s) in
      let trackInfo :=
        {| SSRC := ssrc; ID := tl_id track; StreamID := tl_streamID track;
           Kind := TrackLocal_Kind track; Mid := "" |} in
      (None, upd_localTracks (insert ssrc (mklocalTrackInfo trackInfo transceiver sender track)) s)
    end
  end.

Definition addRemoteTrack (rti : remoteTrackInfo) : State → State :=
  upd_remoteTracks (insert (SSRC (rti_trackInfo rti)) rti).

Definition removeRemoteTrack (ssrc : uint32) : State → State :=
  upd_remoteTracks (delete ssrc).

Definition with_Mid (mid : string) (trackInfo : TrackInfo) : TrackInfo :=
  {| SSRC := SSRC trackInfo; ID := ID trackInfo; StreamID := StreamID trackInfo;
     Kind := Kind trackInfo; Mid := mid |}.

(** [RemoteTracks] and [LocalTracks] walk the map in an order Go leaves open;
    here it is the order of [map_to_list].  [None] is the nil-pointer panic of
    [Mid()] on an entry whose transceiver was not found. *)
Definition RemoteTracks (s : State) : option (list TrackInfo) :=
  mapM (λ rti, tr ← rti_transceiver rti;
               Some (with_Mid (transceiver_Mid tr (peerConnection s)) (rti_trackInfo rti)))
       (map_to_list (remoteTracks s)).*2.

Definition LocalTracks (s : State) : option (list TrackInfo) :=
  mapM (λ lti, tr ← lti_transceiver lti;
               Some (with_Mid (transceiver_Mid tr (peerConnection s)) (lti_trackInfo lti)))
       (map_to_list (localTracks s)).*2.

(** ** The goroutines, one step at a time *)

(** Lines 491-497 of [handleTrack]. *)
Definition handleTrack_trackInfo (track : TrackRemote) : TrackInfo :=
  {| SSRC := tr_SSRC track; ID := tr_ID track; StreamID := tr_StreamID track;
     Kind := tr_Kind track; Mid := "" |}.

Definition goto_remote (tid : nat) (pc : remote_pc) : State → State :=
  upd_remoteThreads (alter (λ th, mkremoteThread (rt_track th) (rt_receiver th) pc) tid).

(** One step of the [tid]-th [handleTrack] call or of its pump.  [None]: there
    is no such call, or its pump has exited.  A send is a step only when a
    receiver takes the value or when the channel is closed. *)
Definition step_remote (tid : nat) (s : State) : option State :=
  th ← remoteThreads s !! tid;
  let track := rt_track th in
  let receiver := rt_receiver th in
  let trackInfo := handleTrack_trackInfo track in
  match rt_pc th with
  | HT_entry =>
    let s := upd_metrics (metric_Inc prometheusWebRTCTracksTotal) s in
    let s := upd_metrics (metric_Inc prometheusWebRTCTracksActive) s in
    let transceiver := transceiver_of_receiver receiver (peerConnection s) in
    let rti := mkremoteTrackInfo trackInfo transceiver receiver track in
    Some (goto_remote tid HT_sendAdd (addRemoteTrack rti s))
  | HT_sendAdd =>
    match chan_send (tid, mkTrackEvent trackInfo TrackEventTypeAdd) (trackEventsCh s) with
    | None => Some (panic panic_send_on_closed_channel s)
    | Some ch => Some (goto_remote tid HT_go (set_trackEventsCh ch s))
    end
  | HT_go => Some (goto_remote tid RP_read (wg_Add1 s))
  | RP_read =>
    let '(r, pc1) := track_ReadRTP track (peerConnection s) in
    let s := set_peerConnection pc1 s in
    match r with
    | Fail err => Some (goto_remote tid RP_deferred_remove s)
    | Ok pkt =>
      let s := upd_metrics (metric_Inc prometheusRTPPacketsReceived) s in
      let s := upd_metrics (metric_Add prometheusRTPPacketsReceivedBytes (MarshalSize pkt)) s in
      Some (goto_remote tid (RP_send pkt) s)
    end
  | RP_send pkt =>
    match chan_send pkt (rtpCh s) with
    | None => Some (panic panic_send_on_closed_channel s)
    | Some ch => Some (goto_remote tid RP_read (set_rtpCh ch s))
    end
  | RP_deferred_remove =>
    Some (goto_remote tid RP_deferred_send (removeRemoteTrack (SSRC trackInfo) s))
  | RP_deferred_send =>
    match chan_send (tid, mkTrackEvent trackInfo TrackEventTypeRemove) (trackEventsCh s) with
    | None => Some (panic panic_send_on_closed_channel s)
    | Some ch => Some (goto_remote tid RP_deferred_Done (set_trackEventsCh ch s))
    end
  | RP_deferred_Done =>
    let s := wg_Done s in
    let s := upd_metrics (metric_Dec prometheusWebRTCTracksActive) s in
    let s := upd_metrics (metric_Observe prometheusWebRTCTracksDuration) s in
    Some (goto_remote tid RP_exited s)
  | RP_exited => None
  end.

Definition goto_feedback (k : nat) (pc : feedback_pc) : State → State :=
  upd_feedbackPumps (alter (λ fp, mkfeedbackPump (fp_sender fp) pc) k).

(** One step of the [k]-th feedback pump. *)
Definition step_feedback (k : nat) (s : State) : option State :=
  fp ← feedbackPumps s !! k;
  match fp_pc fp with
  | FP_read =>
    let '(r, pc1) := sender_ReadRTCP (fp_sender fp) (peerConnection s) in
    let s := set_peerConnection pc1 s in
    match r with
    | Fail err => Some (goto_feedback k FP_exited (wg_Done s))
    | Ok rtcpPackets => Some (goto_feedback k (FP_send rtcpPackets) s)
    end
  | FP_send [] => Some (goto_feedback k FP_read s)
  | FP_send (rtcpPacket :: rest) =>
    let s := upd_metrics (metric_Inc prometheusRTCPPacketsReceived) s in
    match chan_send rtcpPacket (rtcpCh s) with
    | None => Some (panic panic_send_on_closed_channel s)
    | Some ch => Some (goto_feedback k (FP_send rest) (set_rtcpCh ch s))
    end
  | FP_exited => None
  end.

(** One step of the closing goroutine.  [None]: it is blocked (no close
    notification yet, or a wait-group counter above zero) or has exited. *)
Definition step_closer (s : State) : option State :=
  match closer s with
  | CL_waitClose =>
    if CloseChannel_closed (signaller s) then Some (set_closer CL_wgWait s) else None
  | CL_wgWait =>
    match wg s with
    | O => Some (set_closer CL_dataTransceiverClose s)
    | S _ => None
    end
  | CL_dataTransceiverClose =>
    Some (set_closer CL_closeRtp (set_dataTransceiver_closed true s))
  | CL_closeRtp =>
    match chan_close (rtpCh s) with
    | None => Some (panic panic_close_of_closed_channel s)
    | Some ch => Some (set_closer CL_closeRtcp (set_rtpCh ch s))
    end
  | CL_closeRtcp =>
    match chan_close (rtcpCh s) with
    | None => Some (panic panic_close_of_closed_channel s)
    | Some ch => Some (set_closer CL_closeTrackEvents (set_rtcpCh ch s))
    end
  | CL_closeTrackEvents =>
    match chan_close (trackEventsCh s) with
    | None => Some (panic panic_close_of_closed_channel s)
    | Some ch => Some (set_closer CL_exited (set_trackEventsCh ch s))
    end
  | CL_exited => None
  end.

(** What can happen next: the engine delivers a remote track (it calls the
    handler registered with [OnTrack] on a goroutine of its own), the
    signaller's close notification fires, a goroutine takes a step, or a
    caller runs one of the operations. *)
Inductive Label : Type :=
| EngineOnTrack (track : TrackRemote) (receiver : RTPReceiver)
| SignallerClosed
| RunCloser
| RunRemote (tid : nat)
| RunFeedback (k : nat)
| CallAddTrack (ssrc : uint32) (id streamId : string)
| CallRemoveTrack (ssrc : uint32)
| CallWriteRTP (packet : Packet)
| CallWriteRTCP (packets : list rtcp_Packet).

(** One step of the whole.  After a panic nothing runs.  A call of an
    operation runs as one step: the operations touch neither the track-event
    channel nor the [handleTrack] calls, and what they share among each other
    (the registry, the wait group) they change in one statement each. *)
Definition step (l : Label) (s : State) : option State :=
  if panicked s is Some _ then None
  else
    match l with
    | EngineOnTrack track receiver =>
      Some (upd_remoteThreads (λ ths, ths ++ [mkremoteThread track receiver HT_entry]) s)
    | SignallerClosed => Some (signaller_fire_close s)
    | RunCloser => step_closer s
    | RunRemote tid => step_remote tid s
    | RunFeedback k => step_feedback k s
    | CallAddTrack ssrc id streamId => Some (AddTrack ssrc id streamId s).2
    | CallRemoveTrack ssrc => Some (RemoveTrack ssrc s).2
    | CallWriteRTP packet => Some (WriteRTP packet s).2
    | CallWriteRTCP packets => Some (WriteRTCP packets s).2
    end.

Fixpoint run (ls : list Label) (s : State) : option State :=
  match ls with
  | [] => Some s
  | l :: ls => s1 ← step l s; run ls s1
  end.

(** The events receivers have taken from the track-event channel, and those
    among them sent by the [tid]-th [handleTrack] call or its pump. *)
Definition observed_events (s : State) : list TrackEvent :=
  (chan_received (trackEventsCh s)).*2.

Definition events_of (tid : nat) (s : State) : list TrackEvent :=
  (filter (λ te, te.1 = tid) (chan_received (trackEventsCh s))).*2.

(** ** Vocabulary of the properties *)

Definition Added_event (track : TrackRemote) : TrackEvent :=
  mkTrackEvent (handleTrack_trackInfo track) TrackEventTypeAdd.

Definition Removed_event (track : TrackRemote) : TrackEvent :=
  mkTrackEvent (handleTrack_trackInfo track) TrackEventTypeRemove.

(** The events a [handleTrack] call for [track] and its pump have handed to
    receivers once they stand at [pc]. *)
Definition published_at (track : TrackRemote) (pc : remote_pc) : list TrackEvent :=
  match pc with
  | HT_entry | HT_sendAdd => []
  | HT_go | RP_read | RP_send _ | RP_deferred_remove | RP_deferred_send =>
    [Added_event track]
  | RP_deferred_Done | RP_exited => [Added_event track; Removed_event track]
  end.

(** The [tid]-th [handleTrack] call, made for [track], stands at [pc]. *)
Definition remote_at (tid : nat) (track : TrackRemote) (pc : remote_pc) (s : State) : Prop :=
  ∃ th, remoteThreads s !! tid = Some th ∧ rt_track th = track ∧ rt_pc th = pc.

(** What holds of the track-event channel between any two steps: each call
    has published what its program counter says, and every event comes from
    a call that was made. *)
Definition events_inv (s : State) : Prop :=
  (∀ tid th, remoteThreads s !! tid = Some th →
             events_of tid s = published_at (rt_track th) (rt_pc th)) ∧
  Forall (λ te, te.1 < length (remoteThreads s))%nat (chan_received (trackEventsCh s)).

(** A pump that has been started ([wg.Add(1)] has run for it) and has not
    yet called [wg.Done()]. *)
Definition remote_running (th : remoteThread) : bool :=
  match rt_pc th with
  | RP_read | RP_send _ | RP_deferred_remove | RP_deferred_send | RP_deferred_Done => true
  | HT_entry | HT_sendAdd | HT_go | RP_exited => false
  end.

Definition feedback_running (fp : feedbackPump) : bool :=
  match fp_pc fp with
  | FP_read | FP_send _ => true
  | FP_exited => false
  end.

Definition running_pumps (s : State) : nat :=
  (length (List.filter remote_running (remoteThreads s))
   + length (List.filter feedback_running (feedbackPumps s)))%nat.

(** The engine's reads of [track] end: after finitely many packets
    [ReadRTP] returns an error. *)
Inductive reads_end (track : TrackRemote) : E → Prop :=
| reads_end_now pc err pc1 :
    track_ReadRTP track pc = (Fail err, pc1) → reads_end track pc
| reads_end_later pc pkt pc1 :
    track_ReadRTP track pc = (Ok pkt, pc1) → reads_end track pc1 → reads_end track pc.

(** [ssrc] was never added: the transport has run since its construction
    without an [AddTrack] call for [ssrc]. *)
Definition never_added (ssrc : uint32) (s : State) : Prop :=
  ∃ initiator pc ls,
    run ls (NewWebRTCTransport initiator pc) = Some s ∧
    ∀ id streamId, CallAddTrack ssrc id streamId ∉ ls.

(** [ssrc] has just been removed by a [RemoveTrack] that returned nil. *)
Definition removed_by_RemoveTrack (ssrc : uint32) (s : State) : Prop :=
  ∃ s0, RemoveTrack ssrc s0 = (None, s).

(** The branch of [WriteRTP] that hands the packet to the engine and gets no
    error back. *)
Definition WriteRTP_sent (packet : Packet) (s : State) : Prop :=
  ∃ pta, localTracks s !! Packet_SSRC packet = Some pta ∧
         (track_WriteRTP (lti_track pta) packet (peerConnection s)).1 = None.

(** The engine's reads of [track] yield the packets [pkts], then an error;
    [pc'] is the engine's state after the failed read. *)
Inductive reads_yield (track : TrackRemote) : E → list Packet → E → Prop :=
| reads_yield_end pc err pc1 :
    track_ReadRTP track pc = (Fail err, pc1) → reads_yield track pc [] pc1
| reads_yield_more pc pkt pc1 pkts pc2 :
    track_ReadRTP track pc = (Ok pkt, pc1) → reads_yield track pc1 pkts pc2 →
    reads_yield track pc (pkt :: pkts) pc2.

(** The engine's reads of [sender]'s feedback yield the batches [batches],
    then an error. *)
Inductive feedback_yields (sender : RTPSender) : E → list (list rtcp_Packet) → E → Prop :=
| feedback_yields_end pc err pc1 :
    sender_ReadRTCP sender pc = (Fail err, pc1) → feedback_yields sender pc [] pc1
| feedback_yields_more pc batch pc1 batches pc2 :
    sender_ReadRTCP sender pc = (Ok batch, pc1) → feedback_yields sender pc1 batches pc2 →
    feedback_yields sender pc (batch :: batches) pc2.

Definition total_MarshalSize (pkts : list Packet) : Z :=
  foldr (λ pkt acc, MarshalSize pkt + acc) 0 pkts.

(** Where the closing goroutine stands against what it has closed so far. *)
Definition closer_inv (s : State) : Prop :=
  (closer s ≠ CL_waitClose → CloseChannel_closed (signaller s) = true) ∧
  match closer s with
  | CL_waitClose | CL_wgWait | CL_dataTransceiverClose =>
    dataTransceiver_closed s = false ∧ chan_closed (rtpCh s) = false ∧
    chan_closed (rtcpCh s) = false ∧ chan_closed (trackEventsCh s) = false
  | CL_closeRtp =>
    dataTransceiver_closed s = true ∧ chan_closed (rtpCh s) = false ∧
    chan_closed (rtcpCh s) = false ∧ chan_closed (trackEventsCh s) = false
  | CL_closeRtcp =>
    dataTransceiver_closed s = true ∧ chan_closed (rtpCh s) = true ∧
    chan_closed (rtcpCh s) = false ∧ chan_closed (trackEventsCh s) = false
  | CL_closeTrackEvents =>
    dataTransceiver_closed s = true ∧ chan_closed (rtpCh s) = true ∧
    chan_closed (rtcpCh s) = true ∧ chan_closed (trackEventsCh s) = false
  | CL_exited =>
    dataTransceiver_closed s = true ∧ chan_closed (rtpCh s) = true ∧
    chan_closed (rtcpCh s) = true ∧ chan_closed (trackEventsCh s) = true
  end.

(** Every registry entry sits under the SSRC its track info carries, and the
    stored track info has no [Mid]. *)
Definition registry_inv (s : State) : Prop :=
  (∀ ssrc lti, localTracks s !! ssrc = Some lti →
     SSRC (lti_trackInfo lti) = ssrc ∧ Mid (lti_trackInfo lti) = "") ∧
  (∀ ssrc rti, remoteTracks s !! ssrc = Some rti →
     SSRC (rti_trackInfo rti) = ssrc ∧ Mid (rti_trackInfo rti) = "").




(** The [k]-th feedback pump, reading from [sender], stands at [pc]. *)
Definition feedback_at (k : nat) (sender : RTPSender) (pc : feedback_pc) (s : State) : Prop :=
  ∃ fp, feedbackPumps s !! k = Some fp ∧ fp_sender fp = sender ∧ fp_pc fp = pc.

End Transport.

(** ** A simulated engine

    A scripted peer connection: what the next calls answer is written in its
    state.  [pc_AddTrack] makes a transceiver for the new sender, as pion
    does; a remote track delivers [sim_inbound] and then ends. *)
Record SimEngine : Type := mkSimEngine {
  sim_NewTrack_err : option error;
  sim_AddTrack_err : option error;
  sim_RemoveTrack_err : option error;
  sim_WriteRTP_err : option error;
  sim_transceivers : list (option RTPSender * option RTPReceiver * string);
  sim_inbound : list Packet;
  sim_feedback : list (list rtcp_Packet)
}.

Definition sim_set_transceivers (trs : list (option RTPSender * option RTPReceiver * string))
    (e : SimEngine) : SimEngine :=
  mkSimEngine (sim_NewTrack_err e) (sim_AddTrack_err e) (sim_RemoveTrack_err e)
              (sim_WriteRTP_err e) trs (sim_inbound e) (sim_feedback e).

Definition sim_set_inbound (pkts : list Packet) (e : SimEngine) : SimEngine :=
  mkSimEngine (sim_NewTrack_err e) (sim_AddTrack_err e) (sim_RemoveTrack_err e)
              (sim_WriteRTP_err e) (sim_transceivers e) pkts (sim_feedback e).

Definition sim_set_feedback (fb : list (list rtcp_Packet)) (e : SimEngine) : SimEngine :=
  mkSimEngine (sim_NewTrack_err e) (sim_AddTrack_err e) (sim_RemoveTrack_err e)
              (sim_WriteRTP_err e) (sim_transceivers e) (sim_inbound e) fb.

#[global] Instance SimEngine_NetworkEngine : NetworkEngine SimEngine := {
  NewTrackLocalStaticRTP_err _ _ _ e := sim_NewTrack_err e;
  pc_AddTrack _ e :=
    match sim_AddTrack_err e with
    | Some err => (Fail err, e)
    | None =>
      let sender := length (sim_transceivers e) in
      (Ok sender, sim_set_transceivers (sim_transceivers e ++ [(Some sender, None, "")]) e)
    end;
  pc_RemoveTrack _ e := (sim_RemoveTrack_err e, e);
  pc_WriteRTCP _ e := (None, e);
  pc_GetTransceivers e := seq 0 (length (sim_transceivers e));
  transceiver_Sender tr e := '(sender, _, _) ← sim_transceivers e !! tr; sender;
  transceiver_Receiver tr e := '(_, receiver, _) ← sim_transceivers e !! tr; receiver;
  transceiver_Mid tr e := default "" ((λ t, t.2) <$> sim_transceivers e !! tr);
  track_WriteRTP _ _ e := (sim_WriteRTP_err e, e);
  sender_ReadRTCP _ e :=
    match sim_feedback e with
    | [] => (Fail io_EOF, e)
    | pkts :: rest => (Ok pkts, sim_set_feedback rest e)
    end;
  track_ReadRTP _ e :=
    match sim_inbound e with
    | [] => (Fail io_EOF, e)
    | pkt :: rest => (Ok pkt, sim_set_inbound rest e)
    end
}.

(** An engine that fails nothing, has a subscriber on every send path, and
    has no transceivers and no inbound traffic yet. *)
Definition sim_idle : SimEngine := mkSimEngine None None None None [] [] [].

(** An engine whose send paths have no subscriber yet. *)
Definition sim_no_subscriber : SimEngine :=
  mkSimEngine None None None (Some io_ErrClosedPipe) [] [] [].

(** A transport on which [AddTrack(1001, "v0", "s0")] has succeeded. *)
Definition sim_with_track (pc : SimEngine) : State :=
  (AddTrack 1001 "v0" "s0" (NewWebRTCTransport true pc)).2.

(** A remote track as the engine would deliver it. *)
Definition sim_track : TrackRemote :=
  {| tr_ptr := 0; tr_SSRC := 1001; tr_ID := "v0"; tr_StreamID := "s0";
     tr_Kind := RTPCodecTypeVideo |}.

(** Two schedules in which the peer connection closes while a remote track
    is being set up.  In the first the callback has not yet handed its Added
    event to a receiver when the closing goroutine runs to its end; in the
    second the closing goroutine gets past [wg.Wait()] before the callback
    reaches [wg.Add(1)], and the pump then reads from the closed
    connection. *)
Definition close_during_Added : list Label :=
  [ EngineOnTrack sim_track 0%nat;  (* the engine delivers a remote track *)
    RunRemote 0;                    (* handleTrack, up to the send of Added *)
    SignallerClosed;                (* the close notification fires *)
    RunCloser;                      (* <-signaller.CloseChannel() *)
    RunCloser;                      (* wg.Wait(): the counter is 0 *)
    RunCloser;                      (* dataTransceiver.Close() *)
    RunCloser;                      (* close(rtpCh) *)
    RunCloser;                      (* close(rtcpCh) *)
    RunCloser;                      (* close(trackEventsCh) *)
    RunRemote 0 ].                  (* the send of Added *)

Definition close_before_pump_start : list Label :=
  [ EngineOnTrack sim_track 0%nat;  (* the engine delivers a remote track *)
    RunRemote 0;                    (* handleTrack, up to the send of Added *)
    SignallerClosed;                (* the close notification fires *)
    RunCloser;                      (* <-signaller.CloseChannel() *)
    RunCloser;                      (* wg.Wait(): the counter is 0 *)
    RunRemote 0;                    (* a receiver takes Added *)
    RunRemote 0;                    (* wg.Add(1); go *)
    RunCloser;                      (* dataTransceiver.Close() *)
    RunCloser;                      (* close(rtpCh) *)
    RunCloser;                      (* close(rtcpCh) *)
    RunCloser;                      (* close(trackEventsCh) *)
    RunRemote 0;                    (* ReadRTP fails: the connection is closed *)
    RunRemote 0;                    (* removeRemoteTrack *)
    RunRemote 0 ].                  (* the send of Removed *)

(** The engine delivers [sim_track], which carries two packets and then
    ends; receivers are ready throughout and nobody closes the connection. *)
Definition sim_two_packets : SimEngine :=
  mkSimEngine None None None None [] [mkPacket 1001 200 []; mkPacket 1001 120 []] [].

Definition one_track_to_its_end : list Label :=
  EngineOnTrack sim_track 0%nat :: replicate 11 (RunRemote 0).

(** ** Codecs *)

Inductive RTCPFBType : Type :=
| TypeRTCPFBGoogREMB
| TypeRTCPFBCCM
| TypeRTCPFBNACK.

Record RTCPFeedback : Type := mkRTCPFeedback {
  fb_Type : RTCPFBType;
  fb_Parameter : string
}.

#[global] Instance RTCPFBType_eq_dec : EqDecision RTCPFBType.
Proof. solve_decision. Defined.
#[global] Instance RTCPFeedback_eq_dec : EqDecision RTCPFeedback.
Proof. solve_decision. Defined.

(** [webrtc.RTPCodecParameters]: the capability it embeds, of which
    [RTPCodecCapability] above keeps the MIME type, and the payload type. *)
Record RTPCodecParameters : Type := mkRTPCodecParameters {
  rcp_capability : RTPCodecCapability;
  rcp_ClockRate : Z;
  rcp_Channels : Z;
  rcp_SDPFmtpLine : string;
  rcp_RTCPFeedback : list RTCPFeedback;
  rcp_PayloadType : Z
}.

(** [*webrtc.MediaEngine]: the codecs registered so far, each with the kind it
    was registered for. *)
Definition MediaEngine : Type := list (RTPCodecParameters * RTPCodecType).

(** [RegisterCodecs]; [RegisterCodec_err] is the error the engine's
    [RegisterCodec] answers with, and [inl err] is [panic(err)]. *)
Definition RegisterCodecs
    (RegisterCodec_err : RTPCodecParameters → RTPCodecType → option error)
    (mediaEngine : MediaEngine) (jitterBufferEnabled : bool) : error + MediaEngine :=
  let rtcpfb :=
    [ mkRTCPFeedback TypeRTCPFBGoogREMB "";
      mkRTCPFeedback TypeRTCPFBNACK "pli" ] in
  let rtcpfb :=
    if jitterBufferEnabled then rtcpfb ++ [mkRTCPFeedback TypeRTCPFBNACK ""] else rtcpfb in
  let vp8 :=
    {| rcp_capability := mkRTPCodecCapability "video/VP8"; rcp_ClockRate := 90000;
       rcp_Channels := 0; rcp_SDPFmtpLine := ""; rcp_RTCPFeedback := rtcpfb;
       rcp_PayloadType := 96 |} in
  match RegisterCodec_err vp8 RTPCodecTypeVideo with
  | Some err => inl err
  | None =>
    let mediaEngine := mediaEngine ++ [(vp8, RTPCodecTypeVideo)] in
    let opus :=
      {| rcp_capability := mkRTPCodecCapability "audio/opus"; rcp_ClockRate := 48000;
         rcp_Channels := 2; rcp_SDPFmtpLine := "minptime=10;useinbandfec=1";
         rcp_RTCPFeedback := []; rcp_PayloadType := 111 |} in
    match RegisterCodec_err opus RTPCodecTypeAudio with
    | Some err => inl err
    | None => inr (mediaEngine ++ [(opus, RTPCodecTypeAudio)])
    end
  end.

(** ** The factory's settings *)

Inductive NetworkType : Type :=
| NetworkTypeUDP4
| NetworkTypeUDP6
| NetworkTypeTCP4
| NetworkTypeTCP6.

#[global] Instance NetworkType_eq_dec : EqDecision NetworkType.
Proof. solve_decision. Defined.

(** Modelled from the spec: [NetworkConfigSFU] is declared in another file;
    these are the fields [NewWebRTCTransportFactory] reads. *)
Record NetworkConfigSFU : Type := mkNetworkConfigSFU {
  Interfaces : list string;
  UDP_PortMin : Z;
  UDP_PortMax : Z;
  TCPBindAddr : string;
  TCPListenPort : Z;
  JitterBuffer : bool
}.

(** What [NewWebRTCTransportFactory] has asked of the setting engine and of
    the operating system: the arguments of each call it has made. *)
Record SettingEngine : Type := mkSettingEngine {
  se_SDPMediaLevelFingerprints : bool;
  se_NetworkTypes : list NetworkType;
  se_EphemeralUDPPortRange : option (Z * Z);
  se_ListenTCP : option (string * Z);
  se_ICETCPMux : bool;
  se_InterfaceFilter : option (string → bool)
}.

(** Modelled from the spec: [ICEServer] is declared in another file; these
    are the fields the factory reads. *)
Record ICEServer : Type := mkICEServer {
  URLs : list string;
  Username : string;
  Credential : string
}.

Record WebRTCTransportFactory : Type := mkWebRTCTransportFactory {
  f_iceServers : list ICEServer;
  f_settingEngine : SettingEngine;
  f_mediaEngine : MediaEngine
}.

(** Lines 46-49: the set of allowed interfaces, filled in a loop. *)
Definition allowedInterfaces (sfuConfig : NetworkConfigSFU) : gset string :=
  foldl (λ allowed iface, {[iface]} ∪ allowed) ∅ (Interfaces sfuConfig).

(** Lines 71-79: the loop that looks for a TCP network type. *)
Fixpoint tcpEnabled (networkTypes : list NetworkType) : bool :=
  match networkTypes with
  | [] => false
  | networkType :: rest =>
    if bool_decide (networkType = NetworkTypeTCP4 ∨ networkType = NetworkTypeTCP6)
    then true
    else tcpEnabled rest
  end.

(** [NewWebRTCTransportFactory].  [networkTypes] is what [NewNetworkTypes]
    has made of the configured protocols; [ListenTCP_err] is what the
    operating system answers to [net.ListenTCP] and [RegisterCodec_err] what
    the media engine answers.  The answer of [SetEphemeralUDPPortRange] only
    decides which line is logged.  [inl err] is the [panic(err)] of
    [RegisterCodecs]. *)
Definition NewWebRTCTransportFactory (iceServers : list ICEServer)
    (sfuConfig : NetworkConfigSFU) (networkTypes : list NetworkType)
    (ListenTCP_err : option error)
    (RegisterCodec_err : RTPCodecParameters → RTPCodecType → option error)
  : error + WebRTCTransportFactory :=
  let udpRange :=
    if bool_decide (0 < UDP_PortMin sfuConfig) && bool_decide (0 < UDP_PortMax sfuConfig)
    then Some (UDP_PortMin sfuConfig, UDP_PortMax sfuConfig)
    else None in
  let listen :=
    if tcpEnabled networkTypes
    then Some (TCPBindAddr sfuConfig, TCPListenPort sfuConfig)
    else None in
  let mux :=
    if tcpEnabled networkTypes
    then match ListenTCP_err with Some _ => false | None => true end
    else false in
  let filter :=
    if bool_decide (0 < size (allowedInterfaces sfuConfig))%nat
    then Some (λ iface, bool_decide (iface ∈ allowedInterfaces sfuConfig))
    else None in
  let settingEngine :=
    {| se_SDPMediaLevelFingerprints := true;
       se_NetworkTypes := networkTypes;
       se_EphemeralUDPPortRange := udpRange;
       se_ListenTCP := listen;
       se_ICETCPMux := mux;
       se_InterfaceFilter := filter |} in
  match RegisterCodecs RegisterCodec_err [] (JitterBuffer sfuConfig) with
  | inl err => inl err
  | inr mediaEngine => inr (mkWebRTCTransportFactory iceServers settingEngine mediaEngine)
  end.

(** ** Construction, with its failures *)

Inductive ICECredentialType : Type :=
| ICECredentialTypePassword
| ICECredentialTypeOauth.

(** [var c webrtc.ICECredentialType]: the type's first constant. *)
Definition ICECredentialType_zero : ICECredentialType := ICECredentialTypePassword.

Record webrtc_ICEServer : Type := mkwebrtc_ICEServer {
  ws_URLs : list string;
  ws_CredentialType : ICECredentialType;
  ws_Username : string;
  ws_Credential : string
}.

Definition DataChannel : Type := nat.

(** The calls the construction makes on its collaborators, in order. *)
Inductive SetupCall : Type :=
| call_NewPeerConnection (iceServers : list webrtc_ICEServer)
| call_CreateDataChannel (label : string)
| call_NewDataTransceiver (dataChannel : option DataChannel)
| call_NewSignaller (initiator : bool)
| call_OnICEGatheringStateChange
| call_OnTrack
| call_go_closer
| call_Close.

#[global] Instance ICECredentialType_eq_dec : EqDecision ICECredentialType.
Proof. solve_decision. Defined.
#[global] Instance webrtc_ICEServer_eq_dec : EqDecision webrtc_ICEServer.
Proof. solve_decision. Defined.
#[global] Instance SetupCall_eq_dec : EqDecision SetupCall.
Proof. solve_decision. Defined.

(** What the collaborators answer during one construction. *)
Record SetupAnswers : Type := mkSetupAnswers {
  ans_CreateDataChannel : res DataChannel;
  ans_NewSignaller : option error;
  ans_Close : option error
}.

(** [closePeer]: the errors handed to the [MultiErrorHandler], in order. *)
Definition closePeer (a : SetupAnswers) (reason : error) : list SetupCall * list error :=
  ([call_Close],
   reason :: match ans_Close a with
             | Some err => [Annotated err "close peer connection"]
             | None => []
             end).

Section Construction.
Context {E : Type} `{!NetworkEngine E}.

(** [NewWebRTCTransport] with its early returns: the calls made, and either
    the errors of [closePeer] or the transport. *)
Definition NewWebRTCTransport_full (initiator : bool) (peerConnection : E)
    (a : SetupAnswers) : list SetupCall * (list error + @State E) :=
  let after_data_channel (calls : list SetupCall) (dataChannel : option DataChannel) :=
    let calls := calls ++ [call_NewDataTransceiver dataChannel] in
    let calls := calls ++ [call_NewSignaller initiator] in
    let calls := calls ++ [call_OnICEGatheringStateChange] in
    match ans_NewSignaller a with
    | Some err =>
      let '(closing, errs) := closePeer a (Annotated err "initialize signaller") in
      (calls ++ closing, inl errs)
    | None =>
      (calls ++ [call_OnTrack; call_go_closer],
       inr (NewWebRTCTransport initiator peerConnection))
    end in
  if initiator then
    match ans_CreateDataChannel a with
    | Fail err =>
      let '(closing, errs) := closePeer a (Annotated err "create data channel") in
      (call_CreateDataChannel "data" :: closing, inl errs)
    | Ok dataChannel => after_data_channel [call_CreateDataChannel "data"] (Some dataChannel)
    end
  else after_data_channel [] None.

(** The factory's [NewWebRTCTransport(clientID)].  [GetICEAuthServers] is
    declared in another file; [NewPeerConnection] answers with the peer
    connection or an error. *)
Definition WebRTCTransportFactory_NewWebRTCTransport
    (GetICEAuthServers : list ICEServer → list ICEServer)
    (f : WebRTCTransportFactory) (NewPeerConnection : res E) (a : SetupAnswers)
  : list SetupCall * (list error + @State E) :=
  let webrtcICEServers :=
    (λ iceServer,
       let c :=
         if negb (String.eqb (Username iceServer) "")
            && negb (String.eqb (Credential iceServer) "")
         then ICECredentialTypePassword
         else ICECredentialType_zero in
       {| ws_URLs := URLs iceServer; ws_CredentialType := c;
          ws_Username := Username iceServer; ws_Credential := Credential iceServer |})
    <$> GetICEAuthServers (f_iceServers f) in
  match NewPeerConnection with
  | Fail err =>
    ([call_NewPeerConnection webrtcICEServers], inl [Annotated err "new peer connection"])
  | Ok peerConnection =>
    let '(calls, r) := NewWebRTCTransport_full true peerConnection a in
    (call_NewPeerConnection webrtcICEServers :: calls, r)
  end.

End Construction.

(** Scenarios for the further properties. *)
Definition sim_broken_send : SimEngine :=
  mkSimEngine None None None (Some (engine_error "srtp")) [] [] [].

Definition sim_feedback_batches : SimEngine :=
  mkSimEngine None None None None [] [] [[[1]]; [[2]; [3]]].

(** A transport to which the engine has just delivered [sim_track]. *)
Definition sim_delivered (pc : SimEngine) : State :=
  upd_remoteThreads (λ ths, ths ++ [mkremoteThread sim_track 0%nat HT_entry])
                    (NewWebRTCTransport true pc).

Definition close_when_idle : list Label :=
  [SignallerClosed; RunCloser; RunCloser; RunCloser; RunCloser; RunCloser; RunCloser].

Definition sim_config : NetworkConfigSFU :=
  {| Interfaces := ["eth0"; "eth1"; "eth0"]; UDP_PortMin := 10000; UDP_PortMax := 20000;
     TCPBindAddr := "0.0.0.0"; TCPListenPort := 3478; JitterBuffer := true |}.

Definition sim_factory : WebRTCTransportFactory :=
  {| f_iceServers := [mkICEServer ["stun:stun.example.org"] "" ""];
     f_settingEngine := mkSettingEngine true [NetworkTypeUDP4] None None false None;
     f_mediaEngine := [] |}.

Definition sim_answers_ok : SetupAnswers :=
  {| ans_CreateDataChannel := Ok 0%nat; ans_NewSignaller := None; ans_Close := None |}.

Definition sim_answers_no_signaller : SetupAnswers :=
  {| ans_CreateDataChannel := Ok 0%nat;
     ans_NewSignaller := Some (engine_error "no signaller");
     ans_Close := Some (engine_error "already closed") |}.

(** ** Properties of the operations *)

(** Opens the state changes down to the field updates, which compute once the
    state is a record. *)
Ltac unfold_ops :=
  unfold panic, wg_Add1, wg_Done, signaller_call, signaller_fire_close, go_feedbackPump,
    addRemoteTrack, removeRemoteTrack, goto_remote, goto_feedback,
    set_wg, set_trackEventsCh, set_rtpCh, set_rtcpCh, set_localTracks, set_remoteTracks,
    set_peerConnection, set_signaller, set_dataTransceiver_closed, set_metrics, set_closer,
    set_remoteThreads, set_feedbackPumps, set_panicked in *.

Section Operations.
Context {E : Type} `{!NetworkEngine E}.
Implicit Types (s : @State E) (ssrc : Z) (packet : Packet).

Lemma WriteRTP_absent s packet :
  localTracks s !! Packet_SSRC packet = None →
  WriteRTP packet s = ((0, Some (Errorf_track_not_found (Packet_SSRC packet))), s).
Proof. intros Hno. unfold WriteRTP. by rewrite Hno. Qed.

Lemma RemoveTrack_absent s ssrc :
  localTracks s !! ssrc = None →
  RemoveTrack ssrc s = (Some (Errorf_track_not_found ssrc), s).
Proof. intros Hno. unfold RemoveTrack. by rewrite Hno. Qed.

Lemma RemoveTrack_localTracks s ssrc :
  localTracks (RemoveTrack ssrc s).2 = delete ssrc (localTracks s).
Proof.
  unfold RemoveTrack. destruct (localTracks s !! ssrc) as [pta|] eqn:Hl; simpl.
  - destruct s; simpl in *.
    destruct (pc_RemoveTrack _ _) as [[err|] pc1]; reflexivity.
  - symmetry. by apply delete_id.
Qed.

Lemma WriteRTP_localTracks s packet :
  localTracks (WriteRTP packet s).2 = localTracks s.
Proof.
  unfold WriteRTP. destruct (localTracks s !! _) as [pta|]; [|done].
  destruct (track_WriteRTP _ _ _) as [err pc1].
  destruct (errIs err io_ErrClosedPipe); [by destruct s|].
  destruct err; by destruct s.
Qed.

Lemma WriteRTCP_localTracks s packets :
  localTracks (WriteRTCP packets s).2 = localTracks s.
Proof.
  unfold WriteRTCP. destruct (pc_WriteRTCP _ _) as [[err|] pc1]; by destruct s.
Qed.

Lemma AddTrack_localTracks_ne s ssrc ssrc' id streamId :
  ssrc ≠ ssrc' →
  localTracks (AddTrack ssrc' id streamId s).2 !! ssrc = localTracks s !! ssrc.
Proof.
  intros Hne. unfold AddTrack.
  destruct (NewTrackLocalStaticRTP _ _ _ _) as [track|err]; [|done].
  destruct (pc_AddTrack _ _) as [[sender|err] pc1]; [|by destruct s].
  destruct s as [? ? ? ? ? ? ? [[] ? ?] ? ? ? ? ? ?]; simpl;
    by rewrite lookup_insert_ne.
Qed.

Lemma step_remote_localTracks tid s s' :
  step_remote tid s = Some s' → localTracks s' = localTracks s.
Proof.
  unfold step_remote. intros H.
  destruct (remoteThreads s !! tid) as [th|]; simpl in H; [|done].
  destruct (rt_pc th); repeat case_match; simplify_eq; unfold_ops;
    destruct s as [[|?] ? ? ? ? ? ? ? ? ? ? ? ? ?]; reflexivity.
Qed.

Lemma step_feedback_localTracks k s s' :
  step_feedback k s = Some s' → localTracks s' = localTracks s.
Proof.
  unfold step_feedback. intros H.
  destruct (feedbackPumps s !! k) as [fp|]; simpl in H; [|done].
  repeat case_match; simplify_eq; unfold_ops;
    destruct s as [[|?] ? ? ? ? ? ? ? ? ? ? ? ? ?]; reflexivity.
Qed.

Lemma step_closer_localTracks s s' :
  step_closer s = Some s' → localTracks s' = localTracks s.
Proof.
  unfold step_closer. intros H.
  repeat case_match; simplify_eq; unfold_ops; destruct s; reflexivity.
Qed.

(** Only [AddTrack] for [ssrc] can make [ssrc] present. *)
Lemma step_keeps_absent l s s' ssrc :
  step l s = Some s' →
  (∀ id streamId, l ≠ CallAddTrack ssrc id streamId) →
  localTracks s !! ssrc = None →
  localTracks s' !! ssrc = None.
Proof.
  unfold step. intros Hstep Hl Hno.
  destruct (panicked s); [discriminate|].
  destruct l; simplify_eq.
  - by destruct s.
  - by destruct s.
  - by rewrite (step_closer_localTracks _ _ Hstep).
  - by rewrite (step_remote_localTracks _ _ _ Hstep).
  - by rewrite (step_feedback_localTracks _ _ _ Hstep).
  - rewrite AddTrack_localTracks_ne; [done|]. intros ->. by eapply Hl.
  - rewrite RemoveTrack_localTracks. by apply lookup_delete_None; right.
  - by rewrite WriteRTP_localTracks.
  - by rewrite WriteRTCP_localTracks.
Qed.

Lemma run_keeps_absent ls s s' ssrc :
  run ls s = Some s' →
  (∀ id streamId, CallAddTrack ssrc id streamId ∉ ls) →
  localTracks s !! ssrc = None →
  localTracks s' !! ssrc = None.
Proof.
  revert s. induction ls as [|l ls IH]; intros s Hrun Hls Hno; simpl in Hrun.
  - by simplify_eq.
  - destruct (step l s) as [s1|] eqn:Hstep; simpl in Hrun; [|discriminate].
    apply (IH s1); [done| |].
    + intros id streamId Hin. apply (Hls id streamId). by right.
    + eapply step_keeps_absent; [done| |done].
      intros id streamId ->. apply (Hls id streamId). by left.
Qed.

Lemma never_added_absent s ssrc : never_added ssrc s → localTracks s !! ssrc = None.
Proof.
  intros (initiator & pc & ls & Hrun & Hls).
  eapply run_keeps_absent; [done..|]. apply lookup_empty.
Qed.

Lemma removed_absent s ssrc : removed_by_RemoveTrack ssrc s → localTracks s !! ssrc = None.
Proof.
  intros [s0 Hrm].
  change s with (None : option error, s).2. rewrite <- Hrm, RemoveTrack_localTracks.
  apply lookup_delete_eq.
Qed.

(** C2. An SSRC that is absent from the local-track registry, be it because it
    was never added or because a successful [RemoveTrack] has just removed
    it, makes [WriteRTP] and [RemoveTrack] fail with "track not found", and
    both leave the registry, and everything else, as it was. *)
Theorem absent_ssrc_not_found s ssrc packet :
  localTracks s !! ssrc = None ∨ never_added ssrc s ∨ removed_by_RemoveTrack ssrc s →
  Packet_SSRC packet = ssrc →
  WriteRTP packet s = ((0, Some (Errorf_track_not_found ssrc)), s) ∧
  RemoveTrack ssrc s = (Some (Errorf_track_not_found ssrc), s).
Proof.
  intros Habs <-.
  assert (localTracks s !! Packet_SSRC packet = None) as Hno.
  { destruct Habs as [?|[?|?]]; [done|by apply never_added_absent|by apply removed_absent]. }
  split; [by apply WriteRTP_absent|by apply RemoveTrack_absent].
Qed.

(** C3. When the packet's SSRC is registered and the engine's send path
    answers with the no-subscriber condition ([io.ErrClosedPipe]), [WriteRTP]
    returns zero bytes and a nil error. *)
Theorem WriteRTP_no_subscriber s packet pta :
  localTracks s !! Packet_SSRC packet = Some pta →
  errIs (track_WriteRTP (lti_track pta) packet (peerConnection s)).1 io_ErrClosedPipe = true →
  (WriteRTP packet s).1 = (0, None).
Proof.
  intros Hl Herr. unfold WriteRTP. rewrite Hl.
  destruct (track_WriteRTP _ _ _) as [err pc1]; simpl in Herr. by rewrite Herr.
Qed.

(** C4. When the packet's SSRC is registered and the engine's send returns no
    error, [WriteRTP] returns the packet's marshaled size and a nil error;
    the sent-bytes counter grows by that size and the sent-packets counter by
    one. *)
Theorem WriteRTP_success s packet pta :
  localTracks s !! Packet_SSRC packet = Some pta →
  (track_WriteRTP (lti_track pta) packet (peerConnection s)).1 = None →
  (WriteRTP packet s).1 = (MarshalSize packet, None) ∧
  RTPPacketsSentBytes (metrics (WriteRTP packet s).2)
    = RTPPacketsSentBytes (metrics s) + MarshalSize packet ∧
  RTPPacketsSent (metrics (WriteRTP packet s).2) = RTPPacketsSent (metrics s) + 1.
Proof.
  intros Hl Herr. unfold WriteRTP. rewrite Hl.
  destruct (track_WriteRTP _ _ _) as [err pc1]; simpl in Herr. subst err. simpl.
  by destruct s as [? ? ? ? ? ? ? ? ? [] ? ? ? ?].
Qed.

(** C10. A [WriteRTP] call that does not take the successful-send branch (the
    SSRC is not registered, or the engine's send returns an error, the
    suppressed no-subscriber condition included) leaves every metric, the
    sent-packets and sent-bytes counters among them, as it was. *)
Theorem WriteRTP_failure_keeps_counters s packet :
  ¬ WriteRTP_sent packet s →
  metrics (WriteRTP packet s).2 = metrics s.
Proof.
  intros Hns. unfold WriteRTP.
  destruct (localTracks s !! Packet_SSRC packet) as [pta|] eqn:Hl; [|done].
  destruct (track_WriteRTP _ _ _) as [err pc1] eqn:Hw.
  destruct (errIs err io_ErrClosedPipe); [by destruct s|].
  destruct err as [e|]; [by destruct s|].
  exfalso. apply Hns. exists pta. by rewrite Hw.
Qed.

(** C6. When the engine fails to create the track or to register it as a
    sender, [AddTrack] returns an error, the registry keeps its entries, and
    no feedback pump is started: the list of pumps and the wait-group counter
    are as before. *)
Theorem AddTrack_engine_failure s ssrc id streamId :
  let c := mkRTPCodecCapability MimeTypeVP8 in
  is_Some (NewTrackLocalStaticRTP_err c id streamId (peerConnection s)) ∨
  (∃ err pc1,
     pc_AddTrack (mkTrackLocalStaticRTP c id streamId) (peerConnection s) = (Fail err, pc1)) →
  is_Some (AddTrack ssrc id streamId s).1 ∧
  localTracks (AddTrack ssrc id streamId s).2 = localTracks s ∧
  feedbackPumps (AddTrack ssrc id streamId s).2 = feedbackPumps s ∧
  wg (AddTrack ssrc id streamId s).2 = wg s.
Proof.
  intros c Hfail. unfold AddTrack, NewTrackLocalStaticRTP. fold c.
  destruct (NewTrackLocalStaticRTP_err c id streamId (peerConnection s)) as [err|] eqn:Hn.
  { simpl. eauto. }
  destruct Hfail as [[? [=]]|(err & pc1 & ->)].
  simpl. split; [eauto|]. by destruct s.
Qed.

(** C8. When the SSRC is registered and the engine then fails to remove the
    sender, [RemoveTrack] returns that error (annotated), the registry entry
    is gone all the same, and the signaller is not asked to renegotiate. *)
Theorem RemoveTrack_engine_failure s ssrc pta err pc1 :
  localTracks s !! ssrc = Some pta →
  pc_RemoveTrack (lti_sender pta) (peerConnection s) = (Some err, pc1) →
  (RemoveTrack ssrc s).1 = Some (Annotated err "remove track") ∧
  localTracks (RemoveTrack ssrc s).2 = delete ssrc (localTracks s) ∧
  localTracks (RemoveTrack ssrc s).2 !! ssrc = None ∧
  signaller (RemoveTrack ssrc s).2 = signaller s.
Proof.
  intros Hl Hrm. rewrite RemoveTrack_localTracks, lookup_delete_eq.
  unfold RemoveTrack. rewrite Hl.
  replace (peerConnection (upd_localTracks (delete ssrc) s)) with (peerConnection s)
    by by destruct s.
  rewrite Hrm. simpl. by destruct s.
Qed.

Lemma AddTrack_ok_inv s ssrc id streamId s' track :
  track = mkTrackLocalStaticRTP (mkRTPCodecCapability MimeTypeVP8) id streamId →
  AddTrack ssrc id streamId s = (None, s') →
  ∃ sender pc1,
    pc_AddTrack track (peerConnection s) = (Ok sender, pc1) ∧
    localTracks s'
      = <[ssrc := {| lti_trackInfo := {| SSRC := ssrc; ID := id; StreamID := streamId;
                                         Kind := TrackLocal_Kind track; Mid := "" |};
                     lti_transceiver := transceiver_of_sender sender pc1;
                     lti_sender := sender;
                     lti_track := track |}]> (localTracks s) ∧
    peerConnection s' = pc1.
Proof.
  unfold AddTrack, NewTrackLocalStaticRTP. intros -> Hadd.
  destruct (NewTrackLocalStaticRTP_err _ _ _ _); [discriminate|].
  destruct (pc_AddTrack _ _) as [[sender|err] pc1]; [|discriminate].
  injection Hadd as <-. exists sender, pc1.
  destruct s as [? ? ? ? ? ? ? [[] ? ?] ? ? ? ? ? ?]; simpl; done.
Qed.

(** C5. On a transport with an empty local registry, after [AddTrack] has
    returned nil (and the engine lists a transceiver for the sender it has
    handed out), [LocalTracks] returns exactly one entry, whose SSRC, track
    id and stream id are the arguments of the call. *)
Theorem AddTrack_then_LocalTracks s ssrc id streamId s' :
  localTracks s = ∅ →
  AddTrack ssrc id streamId s = (None, s') →
  (∀ sender pc1,
     pc_AddTrack (mkTrackLocalStaticRTP (mkRTPCodecCapability MimeTypeVP8) id streamId)
                 (peerConnection s) = (Ok sender, pc1) →
     is_Some (transceiver_of_sender sender pc1)) →
  ∃ trackInfo,
    LocalTracks s' = Some [trackInfo] ∧
    SSRC trackInfo = ssrc ∧ ID trackInfo = id ∧ StreamID trackInfo = streamId.
Proof.
  intros Hempty Hadd Heng.
  destruct (AddTrack_ok_inv _ _ _ _ _ _ eq_refl Hadd)
    as (sender & pc1 & Hpc & Hlts & Hpc').
  destruct (Heng sender pc1 Hpc) as [tr Htr].
  eexists. split.
  - unfold LocalTracks.
    rewrite Hlts, Hempty, insert_empty, map_to_list_singleton, Hpc'. simpl.
    rewrite Htr. reflexivity.
  - done.
Qed.

End Operations.

(** ** Properties of the goroutines *)

Section Goroutines.
Context {E : Type} `{!NetworkEngine E}.
Implicit Types (s : @State E).

(** Goals about the fields of a changed state: take the state apart and
    compute. *)
Ltac crush_state s :=
  unfold_ops; destruct s as [[|?] ? ? ? ? ? ? [[] ? ?] ? ? ? ? ? ?]; simpl in *;
  repeat case_match; simplify_eq; simpl in *; try done.

(** *** What a step does to the remote calls and to the track-event channel *)

Lemma step_remote_events tid s s' :
  step_remote tid s = Some s' →
  (remoteThreads s' = remoteThreads s ∧
   chan_received (trackEventsCh s') = chan_received (trackEventsCh s)) ∨
  ∃ th pc' evs,
    remoteThreads s !! tid = Some th ∧
    remoteThreads s'
      = alter (λ th, mkremoteThread (rt_track th) (rt_receiver th) pc') tid (remoteThreads s) ∧
    chan_received (trackEventsCh s')
      = chan_received (trackEventsCh s) ++ ((λ ev, (tid, ev)) <$> evs) ∧
    published_at (rt_track th) pc' = published_at (rt_track th) (rt_pc th) ++ evs.
Proof.
  unfold step_remote. intros H.
  destruct (remoteThreads s !! tid) as [th|] eqn:Hth; simpl in H; [|done].
  destruct (rt_pc th) eqn:Hpc; unfold chan_send in *.
  all: repeat case_match; simplify_eq.
  all: try (left; by crush_state s).
  all: right; exists th.
  all: first
    [ eexists _, []; (split; [done|]);
      (split; [by crush_state s|]); (split; [|by rewrite Hpc, ?app_nil_r]);
      crush_state s; rewrite ?app_nil_r; reflexivity
    | eexists _, [Added_event (rt_track th)]; (split; [done|]);
      (split; [by crush_state s|]); (split; [|by rewrite Hpc, ?app_nil_r]);
      crush_state s; rewrite ?app_nil_r; reflexivity
    | eexists _, [Removed_event (rt_track th)]; (split; [done|]);
      (split; [by crush_state s|]); (split; [|by rewrite Hpc, ?app_nil_r]);
      crush_state s; rewrite ?app_nil_r; reflexivity ].
Qed.

Lemma step_feedback_events k s s' :
  step_feedback k s = Some s' →
  remoteThreads s' = remoteThreads s ∧ trackEventsCh s' = trackEventsCh s.
Proof.
  unfold step_feedback. intros H.
  destruct (feedbackPumps s !! k) as [fp|]; simpl in H; [|done].
  unfold chan_send in *. repeat case_match; simplify_eq; by crush_state s.
Qed.

Lemma step_closer_events s s' :
  step_closer s = Some s' →
  remoteThreads s' = remoteThreads s ∧
  chan_received (trackEventsCh s') = chan_received (trackEventsCh s).
Proof.
  unfold step_closer, chan_close. intros H.
  repeat case_match; simplify_eq; by crush_state s.
Qed.

Lemma AddTrack_events s ssrc id streamId :
  remoteThreads (AddTrack ssrc id streamId s).2 = remoteThreads s ∧
  trackEventsCh (AddTrack ssrc id streamId s).2 = trackEventsCh s.
Proof. unfold AddTrack. repeat case_match; by crush_state s. Qed.

Lemma RemoveTrack_events s ssrc :
  remoteThreads (RemoveTrack ssrc s).2 = remoteThreads s ∧
  trackEventsCh (RemoveTrack ssrc s).2 = trackEventsCh s.
Proof. unfold RemoveTrack. repeat case_match; by crush_state s. Qed.

Lemma WriteRTP_events s packet :
  remoteThreads (WriteRTP packet s).2 = remoteThreads s ∧
  trackEventsCh (WriteRTP packet s).2 = trackEventsCh s.
Proof. unfold WriteRTP. repeat case_match; by crush_state s. Qed.

Lemma WriteRTCP_events s packets :
  remoteThreads (WriteRTCP packets s).2 = remoteThreads s ∧
  trackEventsCh (WriteRTCP packets s).2 = trackEventsCh s.
Proof. unfold WriteRTCP. repeat case_match; by crush_state s. Qed.

(** *** [events_inv] holds along every run *)

Lemma events_inv_same s s' :
  remoteThreads s' = remoteThreads s →
  chan_received (trackEventsCh s') = chan_received (trackEventsCh s) →
  events_inv s → events_inv s'.
Proof. unfold events_inv, events_of. intros -> ->. done. Qed.

Lemma filter_tagged_eq (tid : nat) (evs : list TrackEvent) :
  filter (λ te : nat * TrackEvent, te.1 = tid) ((λ ev, (tid, ev)) <$> evs)
  = (λ ev, (tid, ev)) <$> evs.
Proof.
  induction evs as [|ev evs IH]; [done|]. rewrite fmap_cons.
  rewrite filter_cons_True by done. by rewrite IH.
Qed.

Lemma filter_tagged_ne (tid tid' : nat) (evs : list TrackEvent) :
  tid ≠ tid' →
  filter (λ te : nat * TrackEvent, te.1 = tid') ((λ ev, (tid, ev)) <$> evs) = [].
Proof.
  intros Hne. induction evs as [|ev evs IH]; [done|]. rewrite fmap_cons.
  by rewrite filter_cons_False.
Qed.

Lemma filter_beyond (n : nat) (l : list (nat * TrackEvent)) :
  Forall (λ te, te.1 < n)%nat l → filter (λ te : nat * TrackEvent, te.1 = n) l = [].
Proof.
  induction 1 as [|te l Hte _ IH]; [done|].
  rewrite filter_cons_False by lia. done.
Qed.

Lemma step_events_inv l s s' : step l s = Some s' → events_inv s → events_inv s'.
Proof.
  unfold step. intros Hstep Hinv.
  destruct (panicked s); [discriminate|].
  destruct l; simplify_eq.
  - (* the engine delivers a track *)
    destruct Hinv as [Hev Hlt].
    assert (remoteThreads (upd_remoteThreads
              (λ ths, ths ++ [mkremoteThread track receiver HT_entry]) s)
            = remoteThreads s ++ [mkremoteThread track receiver HT_entry]) as Hths
      by by destruct s.
    assert (trackEventsCh (upd_remoteThreads
              (λ ths, ths ++ [mkremoteThread track receiver HT_entry]) s)
            = trackEventsCh s) as Hch by by destruct s.
    unfold events_inv, events_of. rewrite Hths, Hch. split.
    + intros tid th Hth. apply lookup_app_Some in Hth as [Hth|[Hge Hth]]; [by apply Hev|].
      apply list_lookup_singleton_Some in Hth as [Hz <-]. simpl.
      replace tid with (length (remoteThreads s)) by lia.
      by rewrite filter_beyond.
    + rewrite length_app. simpl. eapply Forall_impl; [exact Hlt|]. simpl. intros; lia.
  - apply (events_inv_same s); [by destruct s..|done].
  - destruct (step_closer_events _ _ Hstep). by eapply events_inv_same.
  - destruct (step_remote_events _ _ _ Hstep)
      as [[??]|(th & pc' & evs & Hth & Hths & Hch & Hpub)].
    { by eapply events_inv_same. }
    destruct Hinv as [Hev Hlt]. unfold events_inv, events_of in *. rewrite Hths, Hch. split.
    + intros tid0 th0 Hth0. rewrite filter_app, fmap_app.
      destruct (decide (tid0 = tid)) as [->|Hne].
      * rewrite list_lookup_alter_eq, Hth in Hth0. cbn in Hth0.
        injection Hth0 as <-. simpl.
        rewrite (Hev _ _ Hth), Hpub, filter_tagged_eq, <-list_fmap_compose.
        f_equal. by rewrite list_fmap_id.
      * rewrite list_lookup_alter_ne in Hth0 by done.
        rewrite filter_tagged_ne by done. rewrite app_nil_r. by apply Hev.
    + rewrite length_alter. apply Forall_app. split; [done|].
      apply Forall_fmap, Forall_true. simpl. intros _. by eapply lookup_lt_Some.
  - destruct (step_feedback_events _ _ _ Hstep) as [? Hch].
    eapply events_inv_same; [done| |done]. by rewrite Hch.
  - destruct (AddTrack_events s ssrc id streamId) as [? Hch].
    eapply events_inv_same; [done| |done]. by rewrite Hch.
  - destruct (RemoveTrack_events s ssrc) as [? Hch].
    eapply events_inv_same; [done| |done]. by rewrite Hch.
  - destruct (WriteRTP_events s packet) as [? Hch].
    eapply events_inv_same; [done| |done]. by rewrite Hch.
  - destruct (WriteRTCP_events s packets) as [? Hch].
    eapply events_inv_same; [done| |done]. by rewrite Hch.
Qed.

Lemma run_events_inv ls s s' : run ls s = Some s' → events_inv s → events_inv s'.
Proof.
  revert s. induction ls as [|l ls IH]; intros s Hrun Hinv; simpl in Hrun; [by simplify_eq|].
  destruct (step l s) as [s1|] eqn:Hstep; simpl in Hrun; [|discriminate].
  eauto using step_events_inv.
Qed.

Lemma NewWebRTCTransport_events_inv initiator (pc : E) :
  events_inv (NewWebRTCTransport initiator pc).
Proof. split; [by intros ? ? [=]|by apply Forall_nil]. Qed.

(** *** A call whose reads end runs to the exit of its pump *)

(** Computes one step of the call whose thread [Hth] names. *)
Ltac run_remote_step Hth :=
  unfold step, step_remote; simpl;
  rewrite ?list_lookup_alter_eq, ?Hth; simpl.

Lemma run_app ls1 ls2 s : run (ls1 ++ ls2) s = run ls1 s ≫= run ls2.
Proof.
  revert s. induction ls1 as [|l ls1 IH]; intros s; [done|].
  simpl. destruct (step l s); simpl; [apply IH|done].
Qed.

Lemma pump_completes track pc0 :
  reads_end track pc0 →
  ∀ s tid,
    peerConnection s = pc0 → panicked s = None →
    remote_at tid track RP_read s → (0 < wg s)%nat →
    chan_closed (trackEventsCh s) = false → chan_closed (rtpCh s) = false →
    ∃ n s',
      run (replicate n (RunRemote tid)) s = Some s' ∧ panicked s' = None ∧
      remote_at tid track RP_exited s' ∧
      chan_received (trackEventsCh s')
        = chan_received (trackEventsCh s) ++ [(tid, Removed_event track)].
Proof.
  induction 1 as [pc0 err pc1 Hread|pc0 pkt pc1 Hread _ IH];
    intros s tid Hpc Hpan (th & Hth & Htr & Hat) Hwg Hev Hrtp.
  - exists 4%nat.
    destruct s as [[|n] [[] evs] [[] pkts] ? ? ? ? ? ? ? ? ths ? ?];
      simpl in *; try done; try lia.
    destruct th as [? ? ?]; simpl in *; subst.
    eexists. split.
    + do 4 (run_remote_step Hth; rewrite ?Hread; simpl). reflexivity.
    + simpl. split; [done|]. split; [|done].
      eexists. simpl. rewrite !list_lookup_alter_eq, Hth. simpl. done.
  - assert (∃ s2, run (replicate 2 (RunRemote tid)) s = Some s2 ∧
                  peerConnection s2 = pc1 ∧ panicked s2 = None ∧
                  remote_at tid track RP_read s2 ∧ (0 < wg s2)%nat ∧
                  chan_closed (trackEventsCh s2) = false ∧ chan_closed (rtpCh s2) = false ∧
                  chan_received (trackEventsCh s2) = chan_received (trackEventsCh s))
      as (s2 & Hrun2 & ? & ? & ? & ? & ? & ? & Hsame).
    { destruct s as [[|n] [[] evs] [[] pkts] ? ? ? ? ? ? ? ? ths ? ?];
        simpl in *; try done; try lia.
      destruct th as [? ? ?]; simpl in *; subst.
      eexists. split.
      - do 2 (run_remote_step Hth; rewrite ?Hread; simpl). reflexivity.
      - simpl. split_and!; try done; try lia.
        eexists. simpl. rewrite !list_lookup_alter_eq, Hth. simpl. done. }
    destruct (IH s2 tid) as (n' & s' & Hrun & ? & ? & Hrecv); try done.
    exists (2 + n')%nat, s'. split; [|by rewrite <- Hsame].
    rewrite replicate_add, run_app, Hrun2. exact Hrun.
Qed.

Lemma handleTrack_completes s tid th :
  panicked s = None →
  remoteThreads s !! tid = Some th → rt_pc th = HT_entry →
  chan_closed (trackEventsCh s) = false → chan_closed (rtpCh s) = false →
  reads_end (rt_track th) (peerConnection s) →
  ∃ n s',
    run (replicate n (RunRemote tid)) s = Some s' ∧ panicked s' = None ∧
    remote_at tid (rt_track th) RP_exited s' ∧
    chan_received (trackEventsCh s')
      = chan_received (trackEventsCh s)
          ++ [(tid, Added_event (rt_track th)); (tid, Removed_event (rt_track th))].
Proof.
  intros Hpan Hth Hat Hev Hrtp Hreads.
  assert (∃ s3, run (replicate 3 (RunRemote tid)) s = Some s3 ∧
                peerConnection s3 = peerConnection s ∧ panicked s3 = None ∧
                remote_at tid (rt_track th) RP_read s3 ∧ (0 < wg s3)%nat ∧
                chan_closed (trackEventsCh s3) = false ∧ chan_closed (rtpCh s3) = false ∧
                chan_received (trackEventsCh s3)
                  = chan_received (trackEventsCh s) ++ [(tid, Added_event (rt_track th))])
    as (s3 & Hrun3 & Hpc & ? & ? & ? & ? & ? & Hrecv3).
  { destruct s as [? [[] evs] [[] pkts] ? ? ? ? ? ? ? ? ths ? ?]; simpl in *; try done.
    destruct th as [? ? ?]; simpl in *; subst.
    eexists. split.
    - do 3 (run_remote_step Hth). reflexivity.
    - simpl. split_and!; try done; try lia.
      eexists. simpl. rewrite !list_lookup_alter_eq, Hth. simpl. done. }
  rewrite <- Hpc in Hreads.
  destruct (pump_completes _ _ Hreads s3 tid) as (n & s' & Hrun & ? & ? & Hrecv); try done.
  exists (3 + n)%nat, s'. split; [by rewrite replicate_add, run_app, Hrun3|].
  split_and!; try done. by rewrite Hrecv, Hrecv3, <- app_assoc.
Qed.

(** C7. However the transport has run since its construction, each remote
    track the engine has delivered has had published for it, in this order:
    nothing until its Added event is sent; exactly one Added event from then
    on, which is before the pump and its read loop start, until the loop has
    exited and the deferred function has sent Removed; exactly one Added
    followed by exactly one Removed after that.  Both events carry the SSRC of
    the track, and Removed never comes without Added before it.  A call that
    has just been made does get that far: if the engine's reads of the track
    end, receivers are ready and the channels are open, running it leads to
    the exit of its pump with Added and Removed published. *)
Theorem remote_track_events ls initiator pc s tid th :
  run ls (NewWebRTCTransport initiator pc) = Some s →
  remoteThreads s !! tid = Some th →
  SSRC (TrackEvent_TrackInfo (Added_event (rt_track th))) = tr_SSRC (rt_track th) ∧
  SSRC (TrackEvent_TrackInfo (Removed_event (rt_track th))) = tr_SSRC (rt_track th) ∧
  events_of tid s =
    match rt_pc th with
    | HT_entry | HT_sendAdd => []
    | HT_go | RP_read | RP_send _ | RP_deferred_remove | RP_deferred_send =>
      [Added_event (rt_track th)]
    | RP_deferred_Done | RP_exited =>
      [Added_event (rt_track th); Removed_event (rt_track th)]
    end ∧
  (rt_pc th = HT_entry → panicked s = None →
   chan_closed (trackEventsCh s) = false → chan_closed (rtpCh s) = false →
   reads_end (rt_track th) (peerConnection s) →
   ∃ n s',
     run (replicate n (RunRemote tid)) s = Some s' ∧ panicked s' = None ∧
     remote_at tid (rt_track th) RP_exited s' ∧
     events_of tid s' = [Added_event (rt_track th); Removed_event (rt_track th)]).
Proof.
  intros Hrun Hth. split; [done|]. split; [done|].
  destruct (run_events_inv _ _ _ Hrun (NewWebRTCTransport_events_inv _ _)) as [Hev _].
  split; [apply (Hev _ _ Hth)|].
  intros Hat Hpan Hopen Hrtp Hreads.
  destruct (handleTrack_completes s tid th) as (n & s' & Hrun' & Hpan' & Hat' & Hrecv);
    [done..|].
  exists n, s'. split_and!; [done..|].
  unfold events_of. rewrite Hrecv, filter_app, fmap_app.
  fold (events_of tid s). rewrite (Hev _ _ Hth), Hat. simpl.
  by rewrite !filter_cons_True by done.
Qed.

Lemma published_at_Mid track pc ev :
  ev ∈ published_at track pc → Mid (TrackEvent_TrackInfo ev) = "".
Proof.
  destruct pc; simpl; intros Hin;
    repeat (apply elem_of_cons in Hin as [->|Hin]; [done|]);
    by apply elem_of_nil in Hin.
Qed.

Lemma observed_events_Mid s ev :
  events_inv s → ev ∈ observed_events s → Mid (TrackEvent_TrackInfo ev) = "".
Proof.
  intros [Hev Hlt] Hin. unfold observed_events in Hin.
  apply list_elem_of_fmap in Hin as ([tid ev'] & -> & Hin). simpl.
  rewrite Forall_forall in Hlt. pose proof (Hlt _ Hin) as Htid. simpl in Htid.
  apply lookup_lt_is_Some in Htid as [th Hth].
  apply (published_at_Mid (rt_track th) (rt_pc th)).
  rewrite <- (Hev _ _ Hth). unfold events_of.
  apply list_elem_of_fmap. exists (tid, ev'). split; [done|].
  by apply list_elem_of_filter.
Qed.

Lemma LocalTracks_Mid s l trackInfo :
  LocalTracks s = Some l → trackInfo ∈ l →
  ∃ ssrc lti tr,
    localTracks s !! ssrc = Some lti ∧ lti_transceiver lti = Some tr ∧
    trackInfo = with_Mid (transceiver_Mid tr (peerConnection s)) (lti_trackInfo lti).
Proof.
  unfold LocalTracks. intros Hl Hin. apply mapM_Some in Hl.
  apply list_elem_of_lookup in Hin as [i Hi].
  destruct (Forall2_lookup_r _ _ _ _ _ Hl Hi) as (lti & Hlti & Hf).
  apply list_elem_of_lookup_2, list_elem_of_fmap in Hlti as ([ssrc lti'] & -> & Hin).
  apply elem_of_map_to_list in Hin. simpl in Hf.
  destruct (lti_transceiver lti') as [tr|] eqn:Htr; [|discriminate].
  simpl in Hf. injection Hf as <-. by exists ssrc, lti', tr.
Qed.

Lemma RemoteTracks_Mid s l trackInfo :
  RemoteTracks s = Some l → trackInfo ∈ l →
  ∃ ssrc rti tr,
    remoteTracks s !! ssrc = Some rti ∧ rti_transceiver rti = Some tr ∧
    trackInfo = with_Mid (transceiver_Mid tr (peerConnection s)) (rti_trackInfo rti).
Proof.
  unfold RemoteTracks. intros Hl Hin. apply mapM_Some in Hl.
  apply list_elem_of_lookup in Hin as [i Hi].
  destruct (Forall2_lookup_r _ _ _ _ _ Hl Hi) as (rti & Hrti & Hf).
  apply list_elem_of_lookup_2, list_elem_of_fmap in Hrti as ([ssrc rti'] & -> & Hin).
  apply elem_of_map_to_list in Hin. simpl in Hf.
  destruct (rti_transceiver rti') as [tr|] eqn:Htr; [|discriminate].
  simpl in Hf. injection Hf as <-. by exists ssrc, rti', tr.
Qed.

(** C9. However the transport has run since its construction, every event
    receivers have taken from the track-event channel, Added or Removed,
    carries an empty [Mid]; the entries of [LocalTracks] and [RemoteTracks]
    carry the [Mid] that the entry's transceiver reports when the list is
    made. *)
Theorem events_carry_empty_Mid ls initiator pc s :
  run ls (NewWebRTCTransport initiator pc) = Some s →
  (∀ ev, ev ∈ observed_events s → Mid (TrackEvent_TrackInfo ev) = "") ∧
  (∀ l trackInfo, LocalTracks s = Some l → trackInfo ∈ l →
     ∃ ssrc lti tr,
       localTracks s !! ssrc = Some lti ∧ lti_transceiver lti = Some tr ∧
       Mid trackInfo = transceiver_Mid tr (peerConnection s)) ∧
  (∀ l trackInfo, RemoteTracks s = Some l → trackInfo ∈ l →
     ∃ ssrc rti tr,
       remoteTracks s !! ssrc = Some rti ∧ rti_transceiver rti = Some tr ∧
       Mid trackInfo = transceiver_Mid tr (peerConnection s)).
Proof.
  intros Hrun. split_and!.
  - intros ev. apply observed_events_Mid.
    eapply run_events_inv; [done|]. apply NewWebRTCTransport_events_inv.
  - intros l trackInfo Hl Hin.
    destruct (LocalTracks_Mid _ _ _ Hl Hin) as (ssrc & lti & tr & ? & ? & ->). eauto 10.
  - intros l trackInfo Hl Hin.
    destruct (RemoteTracks_Mid _ _ _ Hl Hin) as (ssrc & rti & tr & ? & ? & ->). eauto 10.
Qed.
(** *** The wait group counts the pumps at work *)

Lemma count_alter {A : Type} (f : A → bool) (g : A → A) (i : nat) (l : list A) (x : A) :
  l !! i = Some x →
  (length (List.filter f (alter g i l)) + (if f x then 1 else 0)
   = length (List.filter f l) + (if f (g x) then 1 else 0))%nat.
Proof.
  revert i. induction l as [|y l IH]; intros i Hi; [done|].
  destruct i as [|i]; simpl in *.
  - injection Hi as ->.
    destruct (f x) eqn:Hx, (f (g x)) eqn:Hgx; simpl; rewrite ?Hx, ?Hgx; simpl; lia.
  - specialize (IH i Hi). change (alter g i l) with (list_alter g i l) in IH.
    destruct (f y); simpl; lia.
Qed.

Lemma count_snoc {A : Type} (f : A → bool) (l : list A) (x : A) :
  length (List.filter f (l ++ [x])) = (length (List.filter f l) + (if f x then 1 else 0))%nat.
Proof. rewrite List.filter_app, length_app. simpl. by destruct (f x). Qed.

Lemma step_remote_wg tid s s' :
  step_remote tid s = Some s' → wg s = running_pumps s → wg s' = running_pumps s'.
Proof.
  unfold step_remote, running_pumps. intros H.
  destruct (remoteThreads s !! tid) as [th|] eqn:Hth; simpl in H; [|done].
  destruct (rt_pc th) eqn:Hpc; unfold chan_send in *.
  all: repeat case_match; simplify_eq.
  all: unfold_ops; destruct s as [[|w] ? ? ? ? ? ? ? ? ? ? ths fps ?]; simpl in *; try done.
  all: intros Hwg;
    match goal with
    | Hl : ?l !! ?i = Some ?x, Hp : rt_pc ?x = _ |- context [alter ?g ?i ?l] =>
      pose proof (count_alter remote_running g i l x Hl) as Hc;
      destruct x as [? ? pc0]; simpl in Hp; subst pc0; simpl in Hc
    | _ => idtac
    end.
  all: lia.
Qed.

Lemma step_feedback_wg k s s' :
  step_feedback k s = Some s' → wg s = running_pumps s → wg s' = running_pumps s'.
Proof.
  unfold step_feedback, running_pumps. intros H.
  destruct (feedbackPumps s !! k) as [fp|] eqn:Hfp; simpl in H; [|done].
  destruct (fp_pc fp) eqn:Hpc; unfold chan_send in *.
  all: repeat case_match; simplify_eq.
  all: unfold_ops; destruct s as [[|w] ? ? ? ? ? ? ? ? ? ? ths fps ?]; simpl in *; try done.
  all: intros Hwg;
    match goal with
    | Hl : ?l !! ?i = Some ?x, Hp : fp_pc ?x = _ |- context [alter ?g ?i ?l] =>
      pose proof (count_alter feedback_running g i l x Hl) as Hc;
      destruct x as [? pc0]; simpl in Hp; subst pc0; simpl in Hc
    | _ => idtac
    end.
  all: lia.
Qed.

Lemma step_wg l s s' :
  step l s = Some s' → wg s = running_pumps s → wg s' = running_pumps s'.
Proof.
  unfold step. intros Hstep.
  destruct (panicked s); [discriminate|].
  destruct l; simplify_eq.
  - unfold running_pumps. destruct s; simpl. rewrite count_snoc. simpl. lia.
  - by destruct s.
  - unfold step_closer, chan_close in Hstep. repeat case_match; simplify_eq; by crush_state s.
  - by eapply step_remote_wg.
  - by eapply step_feedback_wg.
  - unfold AddTrack, running_pumps. repeat case_match; try by crush_state s.
    all: unfold_ops; destruct s; simpl; rewrite count_snoc; simpl; lia.
  - unfold RemoveTrack. repeat case_match; by crush_state s.
  - unfold WriteRTP. repeat case_match; by crush_state s.
  - unfold WriteRTCP. repeat case_match; by crush_state s.
Qed.

Lemma run_wg ls s s' :
  run ls s = Some s' → wg s = running_pumps s → wg s' = running_pumps s'.
Proof.
  revert s. induction ls as [|l ls IH]; intros s Hrun Hwg; simpl in Hrun; [by simplify_eq|].
  destruct (step l s) as [s1|] eqn:Hstep; simpl in Hrun; [|discriminate].
  eauto using step_wg.
Qed.

(** The wait group counts the pumps that are at work: when [wg.Wait()]
    returns, every pump started so far has exited. *)
Lemma wg_Wait_joins_started_pumps ls initiator (pc : E) s s' :
  run ls (NewWebRTCTransport initiator pc) = Some s →
  closer s = CL_wgWait → step RunCloser s = Some s' →
  Forall (λ th, remote_running th = false) (remoteThreads s) ∧
  Forall (λ fp, feedback_running fp = false) (feedbackPumps s).
Proof.
  intros Hrun Hcl Hstep.
  pose proof (run_wg _ _ _ Hrun eq_refl) as Hwg.
  unfold step, step_closer in Hstep. rewrite Hcl in Hstep.
  destruct (panicked s); [discriminate|].
  destruct (wg s); [|discriminate].
  unfold running_pumps in Hwg.
  assert (∀ {A} (f : A → bool) (l : list A),
            length (List.filter f l) = 0%nat → Forall (λ x, f x = false) l) as Hnone.
  { intros A f l. induction l as [|x l IH]; simpl; [by constructor|].
    destruct (f x) eqn:Hx; simpl; [discriminate|]. intros Hl. constructor; [done|by apply IH]. }
  split; apply Hnone; lia.
Qed.
End Goroutines.

(** ** The closing goroutine against the publishers *)

(** C1. The closing goroutine can close the shared channels while a
    goroutine that publishes on them is still at work: in the first schedule
    the [handleTrack] call is at its send of Added, which no wait-group count
    covers, and in the second its pump has been started after [wg.Wait()]
    returned.  In both the closing goroutine has run to its end and the
    publisher then panics with a send on a closed channel. *)
Theorem close_races_with_publishers :
  (∃ s, run close_during_Added (NewWebRTCTransport true sim_idle) = Some s ∧
        panicked s = Some panic_send_on_closed_channel ∧
        closer s = CL_exited ∧
        rt_pc <$> remoteThreads s !! 0%nat = Some HT_sendAdd) ∧
  (∃ s, run close_before_pump_start (NewWebRTCTransport true sim_idle) = Some s ∧
        panicked s = Some panic_send_on_closed_channel ∧
        closer s = CL_exited ∧
        rt_pc <$> remoteThreads s !! 0%nat = Some RP_deferred_send).
Proof.
  split; eexists; (split; [vm_compute; reflexivity|]); split_and!; reflexivity.
Qed.

(** ** The properties at work on the simulated engine *)

Lemma absent_ssrc_not_found_witness :
  let packet := mkPacket 1001 200 [] in
  let fresh : State := NewWebRTCTransport true sim_idle in
  let other : State := (AddTrack 2002 "a0" "s1" fresh).2 in
  let removed : State := (RemoveTrack 1001 (sim_with_track sim_idle)).2 in
  (localTracks fresh !! 1001 = None ∧
   WriteRTP packet fresh = ((0, Some (Errorf_track_not_found 1001)), fresh) ∧
   RemoveTrack 1001 fresh = (Some (Errorf_track_not_found 1001), fresh)) ∧
  (never_added 1001 other ∧
   WriteRTP packet other = ((0, Some (Errorf_track_not_found 1001)), other) ∧
   RemoveTrack 1001 other = (Some (Errorf_track_not_found 1001), other)) ∧
  (removed_by_RemoveTrack 1001 removed ∧
   WriteRTP packet removed = ((0, Some (Errorf_track_not_found 1001)), removed) ∧
   RemoveTrack 1001 removed = (Some (Errorf_track_not_found 1001), removed)).
Proof.
  intros packet fresh other removed.
  assert (localTracks fresh !! 1001 = None) as Hfresh by reflexivity.
  assert (never_added 1001 other) as Hother.
  { exists true, sim_idle, [CallAddTrack 2002 "a0" "s1"]. split; [reflexivity|].
    intros id streamId Hin. apply list_elem_of_singleton in Hin. discriminate Hin. }
  assert (removed_by_RemoveTrack 1001 removed) as Hremoved.
  { exists (sim_with_track sim_idle). vm_compute. reflexivity. }
  split; [|split].
  - split; [exact Hfresh|].
    apply (absent_ssrc_not_found fresh 1001 packet); [left; exact Hfresh|reflexivity].
  - split; [exact Hother|].
    apply (absent_ssrc_not_found other 1001 packet); [right; left; exact Hother|reflexivity].
  - split; [exact Hremoved|].
    apply (absent_ssrc_not_found removed 1001 packet); [right; right; exact Hremoved|reflexivity].
Defined.

Lemma WriteRTP_no_subscriber_witness :
  (WriteRTP (mkPacket 1001 200 []) (sim_with_track sim_no_subscriber)).1 = (0, None).
Proof.
  eapply (WriteRTP_no_subscriber (sim_with_track sim_no_subscriber) (mkPacket 1001 200 []));
    [vm_compute; reflexivity|vm_compute; reflexivity].
Defined.

Lemma WriteRTP_success_witness :
  let s := sim_with_track sim_idle in
  let packet := mkPacket 1001 200 [] in
  (WriteRTP packet s).1 = (200, None) ∧
  RTPPacketsSentBytes (metrics (WriteRTP packet s).2) = RTPPacketsSentBytes (metrics s) + 200 ∧
  RTPPacketsSent (metrics (WriteRTP packet s).2) = RTPPacketsSent (metrics s) + 1.
Proof.
  intros s packet.
  eapply (WriteRTP_success s packet); [vm_compute; reflexivity|vm_compute; reflexivity].
Defined.

Lemma WriteRTP_failure_keeps_counters_witness :
  let packet := mkPacket 1001 200 [] in
  metrics (WriteRTP packet (NewWebRTCTransport true sim_idle)).2
    = metrics (NewWebRTCTransport true sim_idle) ∧
  metrics (WriteRTP packet (sim_with_track sim_no_subscriber)).2
    = metrics (sim_with_track sim_no_subscriber).
Proof.
  intros packet. split.
  - apply (WriteRTP_failure_keeps_counters (NewWebRTCTransport true sim_idle) packet).
    intros (pta & Hl & _). vm_compute in Hl. discriminate Hl.
  - apply (WriteRTP_failure_keeps_counters (sim_with_track sim_no_subscriber) packet).
    intros (pta & _ & Hw). vm_compute in Hw. discriminate Hw.
Defined.

Lemma AddTrack_engine_failure_witness :
  let no_track := mkSimEngine (Some (engine_error "no track")) None None None [] [] [] in
  let no_sender := mkSimEngine None (Some (engine_error "no sender")) None None [] [] [] in
  let s1 : State := NewWebRTCTransport true no_track in
  let s2 : State := NewWebRTCTransport false no_sender in
  ((AddTrack 1001 "v0" "s0" s1).1 = Some (Annotated (engine_error "no track") "new track") ∧
   localTracks (AddTrack 1001 "v0" "s0" s1).2 = localTracks s1 ∧
   feedbackPumps (AddTrack 1001 "v0" "s0" s1).2 = feedbackPumps s1 ∧
   wg (AddTrack 1001 "v0" "s0" s1).2 = wg s1) ∧
  ((AddTrack 1001 "v0" "s0" s2).1 = Some (Annotated (engine_error "no sender") "add track") ∧
   localTracks (AddTrack 1001 "v0" "s0" s2).2 = localTracks s2 ∧
   feedbackPumps (AddTrack 1001 "v0" "s0" s2).2 = feedbackPumps s2 ∧
   wg (AddTrack 1001 "v0" "s0" s2).2 = wg s2).
Proof.
  intros no_track no_sender s1 s2. split.
  - split; [reflexivity|].
    apply (AddTrack_engine_failure s1 1001 "v0" "s0"). left. eexists. reflexivity.
  - split; [reflexivity|].
    apply (AddTrack_engine_failure s2 1001 "v0" "s0"). right. eexists _, _. reflexivity.
Defined.

Lemma RemoveTrack_engine_failure_witness :
  let gone := mkSimEngine None None (Some (engine_error "sender gone")) None [] [] [] in
  let s := sim_with_track gone in
  (RemoveTrack 1001 s).1 = Some (Annotated (engine_error "sender gone") "remove track") ∧
  localTracks (RemoveTrack 1001 s).2 = delete 1001 (localTracks s) ∧
  localTracks (RemoveTrack 1001 s).2 !! 1001 = None ∧
  signaller (RemoveTrack 1001 s).2 = signaller s.
Proof.
  intros gone s.
  eapply (RemoveTrack_engine_failure s 1001); [vm_compute; reflexivity|vm_compute; reflexivity].
Defined.

Lemma AddTrack_then_LocalTracks_witness :
  ∃ trackInfo,
    LocalTracks (sim_with_track sim_idle) = Some [trackInfo] ∧
    SSRC trackInfo = 1001 ∧ ID trackInfo = "v0" ∧ StreamID trackInfo = "s0".
Proof.
  apply (AddTrack_then_LocalTracks (NewWebRTCTransport true sim_idle) 1001 "v0" "s0").
  - reflexivity.
  - vm_compute. reflexivity.
  - intros sender pc1 Hadd. vm_compute in Hadd. injection Hadd as <- <-.
    vm_compute. eexists. reflexivity.
Defined.

Lemma remote_track_events_witness :
  (∃ s th,
     run one_track_to_its_end (NewWebRTCTransport true sim_two_packets) = Some s ∧
     remoteThreads s !! 0%nat = Some th ∧
     rt_track th = sim_track ∧ rt_pc th = RP_exited ∧ panicked s = None ∧
     events_of 0 s = [Added_event sim_track; Removed_event sim_track]) ∧
  (∃ s n s',
     run [EngineOnTrack sim_track 0%nat] (NewWebRTCTransport true sim_two_packets) = Some s ∧
     run (replicate n (RunRemote 0)) s = Some s' ∧ panicked s' = None ∧
     remote_at 0 sim_track RP_exited s' ∧
     events_of 0 s' = [Added_event sim_track; Removed_event sim_track]).
Proof.
  split.
  - eexists _, _. split; [vm_compute; reflexivity|].
    split; [reflexivity|]. split; [reflexivity|]. split; [reflexivity|]. split; [reflexivity|].
    refine (proj1 (proj2 (proj2 (remote_track_events one_track_to_its_end true sim_two_packets
                                   _ 0%nat (mkremoteThread sim_track 0%nat RP_exited) _ _))));
      [vm_compute; reflexivity|reflexivity].
  - pose (s := upd_remoteThreads (λ ths, ths ++ [mkremoteThread sim_track 0%nat HT_entry])
                                 (NewWebRTCTransport true sim_two_packets)).
    assert (reads_end sim_track (peerConnection s)) as Hreads.
    { eapply reads_end_later; [reflexivity|].
      eapply reads_end_later; [reflexivity|].
      eapply reads_end_now. reflexivity. }
    destruct (proj2 (proj2 (proj2
                (remote_track_events [EngineOnTrack sim_track 0%nat] true sim_two_packets s
                   0%nat (mkremoteThread sim_track 0%nat HT_entry) eq_refl eq_refl)))
                eq_refl eq_refl eq_refl eq_refl Hreads) as (n & s' & Hrun & Hrest).
    exists s, n, s'. split; [reflexivity|]. split; [exact Hrun|exact Hrest].
Defined.

Lemma events_carry_empty_Mid_witness :
  ∃ s,
    run one_track_to_its_end (NewWebRTCTransport true sim_two_packets) = Some s ∧
    observed_events s = [Added_event sim_track; Removed_event sim_track] ∧
    ∀ ev, ev ∈ observed_events s → Mid (TrackEvent_TrackInfo ev) = "".
Proof.
  eexists. split; [vm_compute; reflexivity|]. split; [reflexivity|].
  refine (proj1 (events_carry_empty_Mid one_track_to_its_end true sim_two_packets _ _)).
  vm_compute. reflexivity.
Defined.

(** ** Further properties of the operations *)

(** Takes a state apart and computes the fields of what was made of it. *)
Ltac open_state s :=
  unfold_ops; destruct s as [[|?] ? ? ? ? ? ? [[] ? ?] ? [] ? ? ? ?]; simpl in *;
  repeat case_match; simplify_eq; simpl in *; try done.

Section MoreOperations.
Context {E : Type} `{!NetworkEngine E}.
Implicit Types (s : @State E) (ssrc : Z) (packet : Packet).

(** X1. Whatever it returns, [WriteRTP] changes nothing but the engine's
    state and the metrics: the registries, the wait group, the goroutines,
    the channels and the signaller are as before. *)
Theorem WriteRTP_touches_engine_and_metrics_only s packet :
  wg (WriteRTP packet s).2 = wg s ∧
  localTracks (WriteRTP packet s).2 = localTracks s ∧
  remoteTracks (WriteRTP packet s).2 = remoteTracks s ∧
  signaller (WriteRTP packet s).2 = signaller s ∧
  trackEventsCh (WriteRTP packet s).2 = trackEventsCh s ∧
  rtpCh (WriteRTP packet s).2 = rtpCh s ∧
  rtcpCh (WriteRTP packet s).2 = rtcpCh s ∧
  feedbackPumps (WriteRTP packet s).2 = feedbackPumps s ∧
  remoteThreads (WriteRTP packet s).2 = remoteThreads s ∧
  closer (WriteRTP packet s).2 = closer s ∧
  dataTransceiver_closed (WriteRTP packet s).2 = dataTransceiver_closed s ∧
  panicked (WriteRTP packet s).2 = panicked s.
Proof. unfold WriteRTP. repeat case_match; by open_state s. Qed.

(** X2. When the SSRC is registered and the engine's send returns an error
    whose cause is not [io.ErrClosedPipe], [WriteRTP] returns zero bytes and
    that error annotated with "write rtp". *)
Theorem WriteRTP_engine_error s packet pta e :
  localTracks s !! Packet_SSRC packet = Some pta →
  (track_WriteRTP (lti_track pta) packet (peerConnection s)).1 = Some e →
  errors_Cause e ≠ io_ErrClosedPipe →
  (WriteRTP packet s).1 = (0, Some (Annotated e "write rtp")) ∧
  peerConnection (WriteRTP packet s).2
    = (track_WriteRTP (lti_track pta) packet (peerConnection s)).2.
Proof.
  intros Hl He Hne. unfold WriteRTP. rewrite Hl.
  destruct (track_WriteRTP _ _ _) as [err pc1]; simpl in *. subst err.
  simpl. rewrite bool_decide_eq_false_2 by done. simpl. by destruct s.
Qed.

(** X3. [WriteRTCP] hands the packets to the engine and returns the engine's
    error annotated with "write rtcp", nil for nil; the sent-RTCP counter
    grows by one exactly when the engine returns nil; nothing is put on the
    shared RTCP channel and the registry is as before. *)
Theorem WriteRTCP_result s packets :
  (WriteRTCP packets s).1
    = errors_Annotate (pc_WriteRTCP packets (peerConnection s)).1 "write rtcp" ∧
  peerConnection (WriteRTCP packets s).2 = (pc_WriteRTCP packets (peerConnection s)).2 ∧
  RTCPPacketsSent (metrics (WriteRTCP packets s).2)
    = RTCPPacketsSent (metrics s)
      + (if (pc_WriteRTCP packets (peerConnection s)).1 is None then 1 else 0) ∧
  localTracks (WriteRTCP packets s).2 = localTracks s ∧
  rtcpCh (WriteRTCP packets s).2 = rtcpCh s.
Proof.
  unfold WriteRTCP. destruct (pc_WriteRTCP _ _) as [[err|] pc1]; simpl.
  all: destruct s as [? ? ? ? ? ? ? ? ? [] ? ? ? ?]; simpl; split_and!; try done; lia.
Qed.


(** X4. When [RemoveTrack] returns nil, the SSRC was registered, the engine
    was asked to remove that entry's sender, the entry is gone and the others
    are kept, the signaller was asked once to renegotiate, and the feedback
    pump is neither stopped nor taken out of the wait group. *)
Theorem RemoveTrack_success s ssrc s' :
  RemoveTrack ssrc s = (None, s') →
  ∃ pta,
    localTracks s !! ssrc = Some pta ∧
    pc_RemoveTrack (lti_sender pta) (peerConnection s) = (None, peerConnection s') ∧
    localTracks s' = delete ssrc (localTracks s) ∧
    signaller_calls (signaller s') = signaller_calls (signaller s) ++ [Negotiate] ∧
    wg s' = wg s ∧ feedbackPumps s' = feedbackPumps s ∧ rtcpCh s' = rtcpCh s.
Proof.
  unfold RemoveTrack. intros Hrm.
  destruct (localTracks s !! ssrc) as [pta|] eqn:Hl; [|discriminate].
  exists pta. split; [done|].
  replace (peerConnection (upd_localTracks (delete ssrc) s)) with (peerConnection s) in Hrm
    by by destruct s.
  destruct (pc_RemoveTrack _ _) as [[err|] pc1]; simpl in Hrm; [discriminate|].
  injection Hrm as <-. by open_state s.
Qed.

(** What a successful [AddTrack] has made of the state. *)
Lemma AddTrack_ok_state s ssrc id streamId s' :
  AddTrack ssrc id streamId s = (None, s') →
  ∃ sender pc1,
    let track := mkTrackLocalStaticRTP (mkRTPCodecCapability MimeTypeVP8) id streamId in
    let call := if Initiator (signaller s) then Negotiate
                else SendTransceiverRequest RTPCodecTypeVideo RTPTransceiverDirectionRecvonly in
    pc_AddTrack track (peerConnection s) = (Ok sender, pc1) ∧
    s' = upd_localTracks
           (insert ssrc
              {| lti_trackInfo := {| SSRC := ssrc; ID := id; StreamID := streamId;
                                     Kind := RTPCodecTypeVideo; Mid := "" |};
                 lti_transceiver := transceiver_of_sender sender pc1;
                 lti_sender := sender;
                 lti_track := track |})
           (go_feedbackPump sender (wg_Add1 (signaller_call call (set_peerConnection pc1 s)))).
Proof.
  unfold AddTrack, NewTrackLocalStaticRTP. intros Hadd.
  destruct (NewTrackLocalStaticRTP_err _ _ _ _); [discriminate|].
  destruct (pc_AddTrack _ _) as [[sender|err] pc1]; [|discriminate].
  injection Hadd as <-. exists sender, pc1. split; [done|].
  destruct s as [? ? ? ? ? ? ? [[] ? ?] ? ? ? ? ? ?]; reflexivity.
Qed.

(** X5. When [AddTrack] returns nil, the registry has the new entry under
    the SSRC (video, no [Mid], the call's id and stream id, the sender the
    engine returned, the transceiver found for it), the wait group counts one
    more, one feedback pump for that sender has been started, and the
    signaller has been asked once: to renegotiate if the transport is the
    initiator, for a receive-only video transceiver otherwise. *)
Theorem AddTrack_success s ssrc id streamId s' :
  AddTrack ssrc id streamId s = (None, s') →
  ∃ sender lti,
    localTracks s' = <[ssrc := lti]> (localTracks s) ∧
    lti_sender lti = sender ∧
    lti_trackInfo lti = {| SSRC := ssrc; ID := id; StreamID := streamId;
                           Kind := RTPCodecTypeVideo; Mid := "" |} ∧
    lti_transceiver lti = transceiver_of_sender sender (peerConnection s') ∧
    wg s' = S (wg s) ∧
    feedbackPumps s' = feedbackPumps s ++ [mkfeedbackPump sender FP_read] ∧
    signaller_calls (signaller s')
      = signaller_calls (signaller s)
          ++ [if Initiator (signaller s) then Negotiate
              else SendTransceiverRequest RTPCodecTypeVideo RTPTransceiverDirectionRecvonly] ∧
    rtcpCh s' = rtcpCh s ∧ trackEventsCh s' = trackEventsCh s.
Proof.
  intros Hadd. destruct (AddTrack_ok_state _ _ _ _ _ Hadd) as (sender & pc1 & _ & ->).
  exists sender. eexists.
  destruct s as [? ? ? ? ? ? ? [[] ? ?] ? ? ? ? ? ?]; simpl; split_and!; reflexivity.
Qed.

(** X6. [AddTrack] does not reject an SSRC that is already registered: the
    entry is replaced (the registry keeps its size) while one more feedback
    pump is started and counted. *)
Theorem AddTrack_replaces_registered_ssrc s ssrc id streamId s' old :
  localTracks s !! ssrc = Some old →
  AddTrack ssrc id streamId s = (None, s') →
  ∃ lti,
    localTracks s' !! ssrc = Some lti ∧
    ID (lti_trackInfo lti) = id ∧ StreamID (lti_trackInfo lti) = streamId ∧
    size (localTracks s') = size (localTracks s) ∧
    length (feedbackPumps s') = S (length (feedbackPumps s)) ∧
    wg s' = S (wg s).
Proof.
  intros Hold Hadd.
  destruct (AddTrack_ok_state _ _ _ _ _ Hadd) as (sender & pc1 & _ & ->).
  eexists.
  destruct s as [? ? ? ? lts ? ? [[] ? ?] ? ? ? ? fps ?]; simpl in *.
  all: rewrite lookup_insert_eq, length_app; simpl.
  all: split_and!; try done; try lia.
  all: rewrite <- (insert_id lts ssrc old) at 2 by done.
  all: rewrite <- !(insert_delete_eq lts).
  all: by rewrite !map_size_insert_None by apply lookup_delete_eq.
Qed.


(** X7. [AddTrack] followed by [RemoveTrack] for an SSRC that was not
    registered: the engine is asked to remove the very sender it handed out,
    the registry is back to what it was whether or not the engine fails, and
    the feedback pump that [AddTrack] started is still there and counted. *)
Theorem AddTrack_RemoveTrack_round_trip s ssrc id streamId s1 :
  localTracks s !! ssrc = None →
  AddTrack ssrc id streamId s = (None, s1) →
  ∃ sender pc1,
    pc_AddTrack (mkTrackLocalStaticRTP (mkRTPCodecCapability MimeTypeVP8) id streamId)
                (peerConnection s) = (Ok sender, pc1) ∧
    (RemoveTrack ssrc s1).1 = errors_Annotate (pc_RemoveTrack sender pc1).1 "remove track" ∧
    peerConnection (RemoveTrack ssrc s1).2 = (pc_RemoveTrack sender pc1).2 ∧
    localTracks (RemoveTrack ssrc s1).2 = localTracks s ∧
    feedbackPumps (RemoveTrack ssrc s1).2
      = feedbackPumps s ++ [mkfeedbackPump sender FP_read] ∧
    wg (RemoveTrack ssrc s1).2 = S (wg s).
Proof.
  intros Hno Hadd.
  destruct (AddTrack_ok_state _ _ _ _ _ Hadd) as (sender & pc1 & Hpc & ->).
  exists sender, pc1. split; [exact Hpc|].
  unfold RemoveTrack.
  destruct s as [? ? ? ? lts ? ? [[] ? ?] ? ? ? ? fps ?]; simpl in *.
  all: rewrite lookup_insert_eq; simpl.
  all: destruct (pc_RemoveTrack sender pc1) as [[err|] pc2]; simpl.
  all: rewrite delete_insert_eq, delete_id by done; done.
Qed.

(** X8. After [AddTrack] has returned nil, [WriteRTP] of a packet with that
    SSRC hands the packet to the engine on the track made from the call's id
    and stream id, and returns what the engine's answer decides; it does not
    fail with "track not found". *)
Theorem AddTrack_then_WriteRTP s ssrc id streamId s1 packet :
  AddTrack ssrc id streamId s = (None, s1) →
  Packet_SSRC packet = ssrc →
  peerConnection (WriteRTP packet s1).2
    = (track_WriteRTP (mkTrackLocalStaticRTP (mkRTPCodecCapability MimeTypeVP8) id streamId)
                      packet (peerConnection s1)).2 ∧
  (WriteRTP packet s1).1 =
    match (track_WriteRTP (mkTrackLocalStaticRTP (mkRTPCodecCapability MimeTypeVP8)
                                                 id streamId)
                          packet (peerConnection s1)).1 with
    | None => (MarshalSize packet, None)
    | Some e => if bool_decide (errors_Cause e = io_ErrClosedPipe) then (0, None)
                else (0, Some (Annotated e "write rtp"))
    end.
Proof.
  intros Hadd <-.
  destruct (AddTrack_ok_state _ _ _ _ _ Hadd) as (sender & pc1 & Hpc & ->).
  unfold WriteRTP.
  destruct s as [? ? ? ? lts ? ? [[] ? ?] ? ? ? ? fps ?]; simpl in *.
  all: rewrite lookup_insert_eq; simpl.
  all: destruct (track_WriteRTP _ _ _) as [[err|] pc2]; simpl; [|done].
  all: by destruct (bool_decide _).
Qed.

Lemma LocalTracks_nil_transceiver s :
  (LocalTracks s = None ↔
   ∃ ssrc lti, localTracks s !! ssrc = Some lti ∧ lti_transceiver lti = None) ∧
  (∀ l, LocalTracks s = Some l → length l = size (localTracks s)).
Proof.
  unfold LocalTracks. split.
  - rewrite mapM_None, Exists_exists. split.
    + intros (lti & Hin & Hf).
      apply list_elem_of_fmap in Hin as ([ssrc lti'] & -> & Hin).
      apply elem_of_map_to_list in Hin. exists ssrc, lti'. split; [done|].
      simpl in Hf. by destruct (lti_transceiver lti').
    + intros (ssrc & lti & Hl & Hnil). exists lti. split.
      * apply list_elem_of_fmap. exists (ssrc, lti). split; [done|].
        by apply elem_of_map_to_list.
      * by rewrite Hnil.
  - intros l Hl. apply length_mapM in Hl.
    by rewrite <- Hl, length_fmap, length_map_to_list.
Qed.

Lemma RemoteTracks_nil_transceiver s :
  (RemoteTracks s = None ↔
   ∃ ssrc rti, remoteTracks s !! ssrc = Some rti ∧ rti_transceiver rti = None) ∧
  (∀ l, RemoteTracks s = Some l → length l = size (remoteTracks s)).
Proof.
  unfold RemoteTracks. split.
  - rewrite mapM_None, Exists_exists. split.
    + intros (rti & Hin & Hf).
      apply list_elem_of_fmap in Hin as ([ssrc rti'] & -> & Hin).
      apply elem_of_map_to_list in Hin. exists ssrc, rti'. split; [done|].
      simpl in Hf. by destruct (rti_transceiver rti').
    + intros (ssrc & rti & Hl & Hnil). exists rti. split.
      * apply list_elem_of_fmap. exists (ssrc, rti). split; [done|].
        by apply elem_of_map_to_list.
      * by rewrite Hnil.
  - intros l Hl. apply length_mapM in Hl.
    by rewrite <- Hl, length_fmap, length_map_to_list.
Qed.

(** X9. [LocalTracks] and [RemoteTracks] panic (nil pointer) exactly when
    some entry of their registry has no transceiver; otherwise they return
    one entry per registered track. *)
Theorem listings_panic_on_nil_transceiver s :
  (LocalTracks s = None ↔
   ∃ ssrc lti, localTracks s !! ssrc = Some lti ∧ lti_transceiver lti = None) ∧
  (∀ l, LocalTracks s = Some l → length l = size (localTracks s)) ∧
  (RemoteTracks s = None ↔
   ∃ ssrc rti, remoteTracks s !! ssrc = Some rti ∧ rti_transceiver rti = None) ∧
  (∀ l, RemoteTracks s = Some l → length l = size (remoteTracks s)).
Proof.
  destruct (LocalTracks_nil_transceiver s), (RemoteTracks_nil_transceiver s). done.
Qed.

End MoreOperations.

(** ** Further properties of the goroutines *)

Section MoreGoroutines.
Context {E : Type} `{!NetworkEngine E}.
Implicit Types (s : @State E).

(** *** The closing goroutine and the channels *)

Lemma step_keeps_closing_fields l s s' :
  step l s = Some s' → l ≠ RunCloser → l ≠ SignallerClosed →
  closer s' = closer s ∧ dataTransceiver_closed s' = dataTransceiver_closed s ∧
  CloseChannel_closed (signaller s') = CloseChannel_closed (signaller s) ∧
  chan_closed (rtpCh s') = chan_closed (rtpCh s) ∧
  chan_closed (rtcpCh s') = chan_closed (rtcpCh s) ∧
  chan_closed (trackEventsCh s') = chan_closed (trackEventsCh s).
Proof.
  unfold step. intros Hstep Hl1 Hl2.
  destruct (panicked s); [discriminate|].
  destruct l; simplify_eq.
  - by destruct s.
  - unfold step_remote, chan_send in Hstep.
    destruct (remoteThreads s !! tid) as [th|]; simpl in Hstep; [|done].
    repeat case_match; simplify_eq; by open_state s.
  - unfold step_feedback, chan_send in Hstep.
    destruct (feedbackPumps s !! k) as [fp|]; simpl in Hstep; [|done].
    repeat case_match; simplify_eq; by open_state s.
  - unfold AddTrack. repeat case_match; by open_state s.
  - unfold RemoveTrack. repeat case_match; by open_state s.
  - unfold WriteRTP. repeat case_match; by open_state s.
  - unfold WriteRTCP. repeat case_match; by open_state s.
Qed.

Lemma step_closer_inv l s s' : step l s = Some s' → closer_inv s → closer_inv s'.
Proof.
  intros Hstep Hinv.
  destruct l.
  all: try (destruct (step_keeps_closing_fields _ _ _ Hstep) as (H1 & H2 & H3 & H4 & H5 & H6);
            [discriminate..|];
            unfold closer_inv in *; by rewrite H1, H2, H3, H4, H5, H6).
  - unfold step in Hstep. unfold closer_inv in *.
    destruct (panicked s); [discriminate|]. simplify_eq.
    destruct s as [? ? ? ? ? ? ? [? ? ?] ? ? ? ? ? ?]; simpl in *. intuition congruence.
  - unfold step, step_closer, chan_close in Hstep. unfold closer_inv in *.
    destruct (panicked s); [discriminate|].
    destruct s as [? [[] ?] [[] ?] [[] ?] ? ? ? [? [] ?] [] ? [] ? ? ?];
      simpl in *; repeat case_match; simplify_eq; simpl; intuition congruence.
Qed.

Lemma run_closer_inv ls s s' : run ls s = Some s' → closer_inv s → closer_inv s'.
Proof.
  revert s. induction ls as [|l ls IH]; intros s Hrun Hinv; simpl in Hrun; [by simplify_eq|].
  destruct (step l s) as [s1|] eqn:Hstep; simpl in Hrun; [|discriminate].
  eauto using step_closer_inv.
Qed.

Lemma NewWebRTCTransport_closer_inv initiator (pc : E) :
  closer_inv (NewWebRTCTransport initiator pc).
Proof. by split. Qed.

(** X11. However the transport has run since its construction, the track
    event channel is closed only if the RTCP channel is, the RTCP channel
    only if the RTP channel is, and the RTP channel only after the close
    notification has fired and the data transceiver has been closed; the
    track-event channel is closed exactly when the closing goroutine has
    exited. *)
Theorem channels_close_in_order ls initiator (pc : E) s :
  run ls (NewWebRTCTransport initiator pc) = Some s →
  (chan_closed (trackEventsCh s) = true → chan_closed (rtcpCh s) = true) ∧
  (chan_closed (rtcpCh s) = true → chan_closed (rtpCh s) = true) ∧
  (chan_closed (rtpCh s) = true →
   dataTransceiver_closed s = true ∧ CloseChannel_closed (signaller s) = true) ∧
  (chan_closed (trackEventsCh s) = true ↔ closer s = CL_exited).
Proof.
  intros Hrun.
  pose proof (run_closer_inv _ _ _ Hrun (NewWebRTCTransport_closer_inv _ _)) as [Hfired Hinv].
  destruct (closer s) eqn:Hc; destruct Hinv as (Hdt & Hrtp & Hrtcp & Hev);
    rewrite Hdt, Hrtp, Hrtcp, Hev; split_and!; try done; intros; try done;
    split; try done; by apply Hfired.
Qed.

(** *** A closed channel stays as it is *)

Lemma step_closed_channels l s s' :
  step l s = Some s' →
  (chan_closed (rtpCh s) = true → rtpCh s' = rtpCh s) ∧
  (chan_closed (rtcpCh s) = true → rtcpCh s' = rtcpCh s) ∧
  (chan_closed (trackEventsCh s) = true → trackEventsCh s' = trackEventsCh s).
Proof.
  unfold step. intros Hstep.
  destruct (panicked s); [discriminate|].
  destruct l; simplify_eq.
  - by destruct s.
  - by destruct s.
  - unfold step_closer, chan_close in Hstep.
    repeat case_match; simplify_eq; open_state s; intuition congruence.
  - unfold step_remote, chan_send in Hstep.
    destruct (remoteThreads s !! tid) as [th|]; simpl in Hstep; [|done].
    repeat case_match; simplify_eq; open_state s; intuition congruence.
  - unfold step_feedback, chan_send in Hstep.
    destruct (feedbackPumps s !! k) as [fp|]; simpl in Hstep; [|done].
    repeat case_match; simplify_eq; open_state s; intuition congruence.
  - unfold AddTrack. repeat case_match; by open_state s.
  - unfold RemoveTrack. repeat case_match; by open_state s.
  - unfold WriteRTP. repeat case_match; by open_state s.
  - unfold WriteRTCP. repeat case_match; by open_state s.
Qed.

(** X12. A shared channel that is closed stays closed, and receivers take
    nothing more from it, whatever runs afterwards. *)
Theorem closed_channel_receives_nothing ls s s' :
  run ls s = Some s' →
  (chan_closed (rtpCh s) = true → rtpCh s' = rtpCh s) ∧
  (chan_closed (rtcpCh s) = true → rtcpCh s' = rtcpCh s) ∧
  (chan_closed (trackEventsCh s) = true → trackEventsCh s' = trackEventsCh s).
Proof.
  revert s. induction ls as [|l ls IH]; intros s Hrun; simpl in Hrun; [by simplify_eq|].
  destruct (step l s) as [s1|] eqn:Hstep; simpl in Hrun; [|discriminate].
  destruct (step_closed_channels _ _ _ Hstep) as (H1 & H2 & H3).
  destruct (IH _ Hrun) as (I1 & I2 & I3).
  split_and!; intros Hc.
  - rewrite <- (H1 Hc). apply I1. by rewrite (H1 Hc).
  - rewrite <- (H2 Hc). apply I2. by rewrite (H2 Hc).
  - rewrite <- (H3 Hc). apply I3. by rewrite (H3 Hc).
Qed.


(** *** The only panic is the send on a closed channel *)





End MoreGoroutines.

Section Registry.
Context {E : Type} `{!NetworkEngine E}.
Implicit Types (s : @State E).

(** *** The registries are keyed by the SSRC of their entries *)

Lemma registry_inv_same s s' :
  localTracks s' = localTracks s → remoteTracks s' = remoteTracks s →
  registry_inv s → registry_inv s'.
Proof. unfold registry_inv. by intros -> ->. Qed.

Lemma step_registry_inv l s s' : step l s = Some s' → registry_inv s → registry_inv s'.
Proof.
  unfold step. intros Hstep [Hloc Hrem].
  destruct (panicked s); [discriminate|].
  destruct l; simplify_eq.
  - apply (registry_inv_same s); by destruct s.
  - apply (registry_inv_same s); by destruct s.
  - unfold step_closer, chan_close in Hstep.
    apply (registry_inv_same s); [..|done]; repeat case_match; simplify_eq; by open_state s.
  - unfold step_remote, chan_send in Hstep.
    destruct (remoteThreads s !! tid) as [th|] eqn:Hth; simpl in Hstep; [|done].
    destruct (rt_pc th) eqn:Hpc; repeat case_match; simplify_eq.
    all: split;
      [ intros ssrc lti Hl; apply Hloc; by open_state s
      | intros ssrc rti Hl; open_state s;
        first [ by apply Hrem
              | apply lookup_insert_Some in Hl as [[<- <-]|[_ Hl]]; [done|by apply Hrem]
              | apply lookup_delete_Some in Hl as [_ Hl]; by apply Hrem ] ].
  - unfold step_feedback, chan_send in Hstep.
    destruct (feedbackPumps s !! k) as [fp|] eqn:Hfp; simpl in Hstep; [|done].
    apply (registry_inv_same s); [..|done]; repeat case_match; simplify_eq.
    all: by open_state s.
  - split.
    + intros ssrc0 lti Hl. unfold AddTrack, NewTrackLocalStaticRTP in Hl.
      repeat case_match; simplify_eq; open_state s;
        first [ by apply Hloc
              | apply lookup_insert_Some in Hl as [[<- <-]|[_ Hl]]; [done|by apply Hloc] ].
    + intros ssrc0 rti Hl. apply Hrem.
      unfold AddTrack in Hl; repeat case_match; simplify_eq; by open_state s.
  - split.
    + intros ssrc0 lti Hl. rewrite RemoveTrack_localTracks in Hl.
      apply lookup_delete_Some in Hl as [_ Hl]. by apply Hloc.
    + intros ssrc0 rti Hl. apply Hrem.
      unfold RemoveTrack in Hl; repeat case_match; simplify_eq; by open_state s.
  - apply (registry_inv_same s); [..|done]; unfold WriteRTP; repeat case_match; by open_state s.
  - apply (registry_inv_same s); [..|done]; unfold WriteRTCP; repeat case_match; by open_state s.
Qed.

Lemma run_registry_inv ls s s' : run ls s = Some s' → registry_inv s → registry_inv s'.
Proof.
  revert s. induction ls as [|l ls IH]; intros s Hrun Hinv; simpl in Hrun; [by simplify_eq|].
  destruct (step l s) as [s1|] eqn:Hstep; simpl in Hrun; [|discriminate].
  eauto using step_registry_inv.
Qed.

Lemma NewWebRTCTransport_registry_inv initiator (pc : E) :
  registry_inv (NewWebRTCTransport initiator pc).
Proof. split; intros ? ? Hl; simpl in Hl; by rewrite lookup_empty in Hl. Qed.

(** The SSRCs of a listing are the keys of the registry it was made from. *)
Lemma listing_SSRCs {A : Type} (info : A → TrackInfo) (f : A → option TrackInfo)
    (kvs : list (Z * A)) (l : list TrackInfo) :
  (∀ x y, f x = Some y → SSRC y = SSRC (info x)) →
  Forall (λ kv, SSRC (info kv.2) = kv.1) kvs →
  mapM f kvs.*2 = Some l →
  SSRC <$> l = kvs.*1.
Proof.
  intros Hf Hkeys. revert l. induction Hkeys as [|[k x] kvs Hk _ IH]; intros l Hl.
  - by injection Hl as <-.
  - rewrite fmap_cons in Hl. simpl in Hl.
    destruct (f x) as [y|] eqn:Hy; simpl in Hl; [|discriminate].
    destruct (mapM f kvs.*2) as [l'|] eqn:Hl'; simpl in Hl; [|discriminate].
    injection Hl as <-. rewrite !fmap_cons. simpl in *.
    by rewrite (Hf _ _ Hy), Hk, (IH l').
Qed.

(** X10. However the transport has run since its construction, a listing
    that [LocalTracks] or [RemoteTracks] returns carries each registered SSRC
    exactly once and no other. *)
Theorem listings_have_distinct_SSRCs ls initiator (pc : E) s :
  run ls (NewWebRTCTransport initiator pc) = Some s →
  (∀ l, LocalTracks s = Some l →
        NoDup (SSRC <$> l) ∧ ∀ ssrc, ssrc ∈ SSRC <$> l ↔ is_Some (localTracks s !! ssrc)) ∧
  (∀ l, RemoteTracks s = Some l →
        NoDup (SSRC <$> l) ∧ ∀ ssrc, ssrc ∈ SSRC <$> l ↔ is_Some (remoteTracks s !! ssrc)).
Proof.
  intros Hrun.
  destruct (run_registry_inv _ _ _ Hrun (NewWebRTCTransport_registry_inv _ _)) as [Hloc Hrem].
  split; intros l Hl.
  - unfold LocalTracks in Hl.
    apply (listing_SSRCs lti_trackInfo) in Hl.
    + rewrite Hl. split; [apply NoDup_fst_map_to_list|].
      intros ssrc. rewrite list_elem_of_fmap. split.
      * intros ([k lti] & -> & Hin). apply elem_of_map_to_list in Hin. by exists lti.
      * intros [lti Hin]. exists (ssrc, lti). split; [done|]. by apply elem_of_map_to_list.
    + intros lti y Hy. destruct (lti_transceiver lti); [|discriminate].
      simpl in Hy. by injection Hy as <-.
    + apply Forall_forall. intros [k lti] Hin. apply elem_of_map_to_list in Hin.
      by apply Hloc.
  - unfold RemoteTracks in Hl.
    apply (listing_SSRCs rti_trackInfo) in Hl.
    + rewrite Hl. split; [apply NoDup_fst_map_to_list|].
      intros ssrc. rewrite list_elem_of_fmap. split.
      * intros ([k rti] & -> & Hin). apply elem_of_map_to_list in Hin. by exists rti.
      * intros [rti Hin]. exists (ssrc, rti). split; [done|]. by apply elem_of_map_to_list.
    + intros rti y Hy. destruct (rti_transceiver rti); [|discriminate].
      simpl in Hy. by injection Hy as <-.
    + apply Forall_forall. intros [k rti] Hin. apply elem_of_map_to_list in Hin.
      by apply Hrem.
Qed.

End Registry.

Section TrackMetrics.
Context {E : Type} `{!NetworkEngine E}.
Implicit Types (s : @State E).







End TrackMetrics.

Section Forwarding.
Context {E : Type} `{!NetworkEngine E}.
Implicit Types (s : @State E).

Ltac remote_step Hth :=
  unfold step, step_remote; simpl;
  rewrite ?list_lookup_alter_eq, ?Hth; simpl.

Lemma pump_forwards track pc0 pkts pc' :
  reads_yield track pc0 pkts pc' →
  ∀ s tid,
    peerConnection s = pc0 → panicked s = None →
    remote_at tid track RP_read s → (0 < wg s)%nat →
    chan_closed (trackEventsCh s) = false → chan_closed (rtpCh s) = false →
    ∃ s',
      run (replicate (4 + 2 * length pkts) (RunRemote tid)) s = Some s' ∧
      panicked s' = None ∧ remote_at tid track RP_exited s' ∧
      peerConnection s' = pc' ∧
      rtpCh s' = mkchan false (chan_received (rtpCh s) ++ pkts) ∧
      trackEventsCh s'
        = mkchan false (chan_received (trackEventsCh s) ++ [(tid, Removed_event track)]) ∧
      S (wg s') = wg s ∧
      remoteTracks s' = delete (tr_SSRC track) (remoteTracks s) ∧
      RTPPacketsReceived (metrics s')
        = RTPPacketsReceived (metrics s) + Z.of_nat (length pkts) ∧
      RTPPacketsReceivedBytes (metrics s')
        = RTPPacketsReceivedBytes (metrics s) + total_MarshalSize pkts ∧
      WebRTCTracksActive (metrics s') = WebRTCTracksActive (metrics s) - 1 ∧
      WebRTCTracksTotal (metrics s') = WebRTCTracksTotal (metrics s) ∧
      localTracks s' = localTracks s.
Proof.
  induction 1 as [pc0 err pc1 Hread|pc0 pkt pc1 pkts pc2 Hread _ IH];
    intros s tid Hpc Hpan (th & Hth & Htr & Hat) Hwg Hev Hrtp.
  - destruct s as [[|n] [[] evs] [[] rtps] ? ? ? ? ? ? [] ? ths ? ?];
      simpl in *; try done; try lia.
    destruct th as [? ? ?]; simpl in *; subst.
    eexists. split.
    + do 4 (remote_step Hth; rewrite ?Hread; simpl). reflexivity.
    + simpl. rewrite app_nil_r. split_and!; try done; try lia.
      eexists. simpl. rewrite !list_lookup_alter_eq, Hth. simpl. done.
  - assert (∃ s2, run (replicate 2 (RunRemote tid)) s = Some s2 ∧
                  peerConnection s2 = pc1 ∧ panicked s2 = None ∧
                  remote_at tid track RP_read s2 ∧ wg s2 = wg s ∧
                  trackEventsCh s2 = trackEventsCh s ∧
                  rtpCh s2 = mkchan false (chan_received (rtpCh s) ++ [pkt]) ∧
                  remoteTracks s2 = remoteTracks s ∧
                  RTPPacketsReceived (metrics s2) = RTPPacketsReceived (metrics s) + 1 ∧
                  RTPPacketsReceivedBytes (metrics s2)
                    = RTPPacketsReceivedBytes (metrics s) + MarshalSize pkt ∧
                  WebRTCTracksActive (metrics s2) = WebRTCTracksActive (metrics s) ∧
                  WebRTCTracksTotal (metrics s2) = WebRTCTracksTotal (metrics s) ∧
                  localTracks s2 = localTracks s)
      as (s2 & Hrun2 & Hpc2 & Hpan2 & Hat2 & Hwg2 & Hev2 & Hrtp2 & Hrem2 & Hm1 & Hm2 & Hm3
          & Hm4 & Hloc2).
    { destruct s as [[|n] [[] evs] [[] rtps] ? ? ? ? ? ? [] ? ths ? ?];
        simpl in *; try done; try lia.
      destruct th as [? ? ?]; simpl in *; subst.
      eexists. split.
      - do 2 (remote_step Hth; rewrite ?Hread; simpl). reflexivity.
      - simpl. split_and!; try done; try lia.
        eexists. simpl. rewrite !list_lookup_alter_eq, Hth. simpl. done. }
    destruct (IH s2 tid)
      as (s' & Hrun & ? & ? & ? & Hrtp' & Hev' & Hwg' & Hrem' & Hn1 & Hn2 & Hn3 & Hn4 & Hloc');
      try done; try lia.
    { by rewrite Hev2. }
    { by rewrite Hrtp2. }
    exists s'. split.
    { replace (4 + 2 * length (pkt :: pkts))%nat with (2 + (4 + 2 * length pkts))%nat
        by (simpl; lia).
      rewrite replicate_add, run_app, Hrun2. exact Hrun. }
    split_and!; try done.
    + rewrite Hrtp', Hrtp2. simpl. by rewrite <- app_assoc.
    + by rewrite Hev', Hev2.
    + lia.
    + by rewrite Hrem', Hrem2.
    + rewrite Hn1, Hm1. simpl length. lia.
    + rewrite Hn2, Hm2. simpl. lia.
    + lia.
    + lia.
    + by rewrite Hloc', Hloc2.
Qed.

(** X15. A [handleTrack] call for a track whose reads yield the packets
    [pkts] and then an error, with receivers ready and the channels open,
    runs to the exit of its pump in [7 + 2 * length pkts] steps: the RTP
    channel has carried exactly [pkts], in order; the received-packets and
    received-bytes counters have grown by their number and total size; the
    track has been counted once and is no longer active; the registry has no
    entry under the track's SSRC; the wait group is where it was. *)
Theorem handleTrack_forwards_and_cleans_up s tid th pkts pc' :
  panicked s = None →
  remoteThreads s !! tid = Some th → rt_pc th = HT_entry →
  chan_closed (trackEventsCh s) = false → chan_closed (rtpCh s) = false →
  reads_yield (rt_track th) (peerConnection s) pkts pc' →
  ∃ s',
    run (replicate (7 + 2 * length pkts) (RunRemote tid)) s = Some s' ∧
    panicked s' = None ∧ remote_at tid (rt_track th) RP_exited s' ∧
    peerConnection s' = pc' ∧
    chan_received (rtpCh s') = chan_received (rtpCh s) ++ pkts ∧
    wg s' = wg s ∧
    remoteTracks s' = delete (tr_SSRC (rt_track th)) (remoteTracks s) ∧
    localTracks s' = localTracks s ∧
    RTPPacketsReceived (metrics s')
      = RTPPacketsReceived (metrics s) + Z.of_nat (length pkts) ∧
    RTPPacketsReceivedBytes (metrics s')
      = RTPPacketsReceivedBytes (metrics s) + total_MarshalSize pkts ∧
    WebRTCTracksTotal (metrics s') = WebRTCTracksTotal (metrics s) + 1 ∧
    WebRTCTracksActive (metrics s') = WebRTCTracksActive (metrics s).
Proof.
  intros Hpan Hth Hat Hev Hrtp Hreads.
  assert (∃ s3, run (replicate 3 (RunRemote tid)) s = Some s3 ∧
                peerConnection s3 = peerConnection s ∧ panicked s3 = None ∧
                remote_at tid (rt_track th) RP_read s3 ∧ wg s3 = S (wg s) ∧
                chan_closed (trackEventsCh s3) = false ∧ rtpCh s3 = rtpCh s ∧
                (∃ rti, remoteTracks s3 = <[tr_SSRC (rt_track th) := rti]> (remoteTracks s)) ∧
                RTPPacketsReceived (metrics s3) = RTPPacketsReceived (metrics s) ∧
                RTPPacketsReceivedBytes (metrics s3) = RTPPacketsReceivedBytes (metrics s) ∧
                WebRTCTracksTotal (metrics s3) = WebRTCTracksTotal (metrics s) + 1 ∧
                WebRTCTracksActive (metrics s3) = WebRTCTracksActive (metrics s) + 1 ∧
                localTracks s3 = localTracks s)
    as (s3 & Hrun3 & Hpc & ? & ? & Hwg3 & ? & Hrtp3 & [rti Hrem3] & Hm1 & Hm2 & Hm3 & Hm4
        & Hloc3).
  { destruct s as [? [[] evs] [[] rtps] ? ? ? ? ? ? [] ? ths ? ?]; simpl in *; try done.
    destruct th as [? ? ?]; simpl in *; subst.
    eexists. split.
    - do 3 (remote_step Hth). reflexivity.
    - simpl. split_and!; try done; try lia; [|by eexists].
      eexists. simpl. rewrite !list_lookup_alter_eq, Hth. simpl. done. }
  rewrite <- Hpc in Hreads.
  destruct (pump_forwards _ _ _ _ Hreads s3 tid)
    as (s' & Hrun & ? & ? & ? & Hrtp' & Hev' & Hwg' & Hrem' & Hn1 & Hn2 & Hn3 & Hn4 & Hloc');
    try done; try lia.
  { by rewrite Hrtp3. }
  exists s'. split.
  { replace (7 + 2 * length pkts)%nat with (3 + (4 + 2 * length pkts))%nat by lia.
    by rewrite replicate_add, run_app, Hrun3. }
  split_and!; try done; try lia.
  - by rewrite Hrtp', Hrtp3.
  - by rewrite Hrem', Hrem3, delete_insert_eq.
  - by rewrite Hloc', Hloc3.
Qed.
End Forwarding.

Section FeedbackForwarding.
Context {E : Type} `{!NetworkEngine E}.
Implicit Types (s : @State E).

Ltac feedback_step Hfp :=
  unfold step, step_feedback; simpl;
  rewrite ?list_lookup_alter_eq, ?Hfp; simpl.

Lemma feedback_batch_forwards batch :
  ∀ s k sender,
    panicked s = None → feedback_at k sender (FP_send batch) s →
    chan_closed (rtcpCh s) = false →
    ∃ s',
      run (replicate (S (length batch)) (RunFeedback k)) s = Some s' ∧
      panicked s' = None ∧ feedback_at k sender FP_read s' ∧
      peerConnection s' = peerConnection s ∧ wg s' = wg s ∧
      rtcpCh s' = mkchan false (chan_received (rtcpCh s) ++ batch) ∧
      RTCPPacketsReceived (metrics s')
        = RTCPPacketsReceived (metrics s) + Z.of_nat (length batch) ∧
      localTracks s' = localTracks s.
Proof.
  induction batch as [|pkt batch IH]; intros s k sender Hpan (fp & Hfp & Hsnd & Hat) Hopen.
  - destruct s as [? ? ? [[] rtcps] ? ? ? ? ? [] ? ? fps ?]; simpl in *; try done.
    destruct fp as [? ?]; simpl in *; subst.
    eexists. split.
    + feedback_step Hfp. reflexivity.
    + simpl. rewrite app_nil_r. split_and!; try done; try lia.
      eexists. simpl. rewrite !list_lookup_alter_eq, Hfp. simpl. done.
  - assert (∃ s1, run [RunFeedback k] s = Some s1 ∧
                  panicked s1 = None ∧ feedback_at k sender (FP_send batch) s1 ∧
                  peerConnection s1 = peerConnection s ∧ wg s1 = wg s ∧
                  rtcpCh s1 = mkchan false (chan_received (rtcpCh s) ++ [pkt]) ∧
                  RTCPPacketsReceived (metrics s1) = RTCPPacketsReceived (metrics s) + 1 ∧
                  localTracks s1 = localTracks s)
      as (s1 & Hrun1 & ? & ? & Hpc1 & Hwg1 & Hch1 & Hm1 & Hloc1).
    { destruct s as [? ? ? [[] rtcps] ? ? ? ? ? [] ? ? fps ?]; simpl in *; try done.
      destruct fp as [? ?]; simpl in *; subst.
      eexists. split.
      - feedback_step Hfp. reflexivity.
      - simpl. split_and!; try done; try lia.
        eexists. simpl. rewrite !list_lookup_alter_eq, Hfp. simpl. done. }
    destruct (IH s1 k sender) as (s' & Hrun & ? & ? & Hpc' & Hwg' & Hch' & Hm' & Hloc');
      try done.
    { by rewrite Hch1. }
    exists s'. split.
    { change (replicate (S (length (pkt :: batch))) (RunFeedback k))
        with ([RunFeedback k] ++ replicate (S (length batch)) (RunFeedback k)).
      by rewrite run_app, Hrun1. }
    split_and!; try done; try congruence.
    + rewrite Hch', Hch1. simpl. by rewrite <- app_assoc.
    + rewrite Hm', Hm1. simpl length. lia.
Qed.

(** X16. A feedback pump whose reads yield the batches [batches] and then
    an error, with receivers ready and the RTCP channel open, runs to its
    exit: the RTCP channel has carried the packets of the batches, batch by
    batch and in order, the received-RTCP counter has grown by their number,
    and the pump has taken itself out of the wait group. *)
Theorem feedback_pump_forwards sender pc0 batches pc' :
  feedback_yields sender pc0 batches pc' →
  ∀ s k,
    peerConnection s = pc0 → panicked s = None →
    feedback_at k sender FP_read s → (0 < wg s)%nat →
    chan_closed (rtcpCh s) = false →
    ∃ n s',
      run (replicate n (RunFeedback k)) s = Some s' ∧
      panicked s' = None ∧ feedback_at k sender FP_exited s' ∧
      peerConnection s' = pc' ∧ S (wg s') = wg s ∧
      chan_received (rtcpCh s') = chan_received (rtcpCh s) ++ concat batches ∧
      chan_closed (rtcpCh s') = false ∧
      RTCPPacketsReceived (metrics s')
        = RTCPPacketsReceived (metrics s) + Z.of_nat (length (concat batches)) ∧
      localTracks s' = localTracks s.
Proof.
  induction 1 as [pc0 err pc1 Hread|pc0 batch pc1 batches pc2 Hread _ IH];
    intros s k Hpc Hpan (fp & Hfp & Hsnd & Hat) Hwg Hopen.
  - exists 1%nat.
    destruct s as [[|n] ? ? [[] rtcps] ? ? ? ? ? [] ? ? fps ?]; simpl in *; try done; try lia.
    destruct fp as [? ?]; simpl in *; subst.
    eexists. split.
    + feedback_step Hfp. rewrite Hread. simpl. reflexivity.
    + simpl. rewrite app_nil_r. split_and!; try done; try lia.
      eexists. simpl. rewrite !list_lookup_alter_eq, Hfp. simpl. done.
  - assert (∃ s1, run [RunFeedback k] s = Some s1 ∧
                  panicked s1 = None ∧ feedback_at k sender (FP_send batch) s1 ∧
                  peerConnection s1 = pc1 ∧ wg s1 = wg s ∧
                  rtcpCh s1 = rtcpCh s ∧ metrics s1 = metrics s ∧
                  localTracks s1 = localTracks s)
      as (s1 & Hrun1 & ? & ? & Hpc1 & Hwg1 & Hch1 & Hm1 & Hloc1).
    { destruct s as [? ? ? [[] rtcps] ? ? ? ? ? [] ? ? fps ?]; simpl in *; try done.
      destruct fp as [? ?]; simpl in *; subst.
      eexists. split.
      - feedback_step Hfp. rewrite Hread. simpl. reflexivity.
      - simpl. split_and!; try done; try lia.
        eexists. simpl. rewrite !list_lookup_alter_eq, Hfp. simpl. done. }
    destruct (feedback_batch_forwards batch s1 k sender)
      as (s2 & Hrun2 & ? & ? & Hpc2 & Hwg2 & Hch2 & Hm2 & Hloc2); try done.
    { by rewrite Hch1. }
    destruct (IH s2 k) as (n & s' & Hrun & ? & ? & Hpc' & Hwg' & Hch' & Hopen' & Hm' & Hloc');
      try done; try congruence.
    { by rewrite Hch2. }
    exists (1 + (S (length batch) + n))%nat, s'. split.
    { rewrite !replicate_add.
      change (replicate 1 (RunFeedback k)) with [RunFeedback k].
      rewrite run_app, Hrun1. unfold mbind, option_bind.
      by rewrite run_app, Hrun2. }
    split_and!; try done; try congruence.
    + rewrite Hch', Hch2, Hch1. simpl. by rewrite <- app_assoc.
    + rewrite Hm', Hm2, Hm1. simpl concat. rewrite length_app. lia.
Qed.

End FeedbackForwarding.

(** ** Codecs, factory and construction *)


Lemma allowedInterfaces_spec sfuConfig iface :
  iface ∈ allowedInterfaces sfuConfig ↔ iface ∈ Interfaces sfuConfig.
Proof.
  unfold allowedInterfaces.
  assert (∀ l (acc : gset string),
            iface ∈ foldl (λ allowed i, {[i]} ∪ allowed) acc l
            ↔ iface ∈ acc ∨ iface ∈ l) as Hgen.
  { induction l as [|i l IH]; intros acc; simpl.
    - rewrite elem_of_nil. tauto.
    - rewrite IH, elem_of_cons, elem_of_union, elem_of_singleton. tauto. }
  rewrite Hgen, elem_of_empty. tauto.
Qed.

Lemma allowedInterfaces_empty sfuConfig :
  size (allowedInterfaces sfuConfig) = 0%nat ↔ Interfaces sfuConfig = [].
Proof.
  split.
  - intros Hz. apply size_empty_inv in Hz.
    destruct (Interfaces sfuConfig) as [|i l] eqn:Hl; [done|]. exfalso.
    assert (i ∈ allowedInterfaces sfuConfig) as Hin.
    { apply allowedInterfaces_spec. rewrite Hl. by left. }
    set_solver.
  - intros Hnil. unfold allowedInterfaces. rewrite Hnil. reflexivity.
Qed.

(** X18. The factory installs an interface filter exactly when the
    configuration names interfaces, and the filter accepts exactly the names
    configured. *)
Theorem interface_filter_follows_config
    iceServers sfuConfig networkTypes listen_err accept f :
  NewWebRTCTransportFactory iceServers sfuConfig networkTypes listen_err accept = inr f →
  (se_InterfaceFilter (f_settingEngine f) = None ↔ Interfaces sfuConfig = []) ∧
  (∀ flt iface, se_InterfaceFilter (f_settingEngine f) = Some flt →
     (flt iface = true ↔ iface ∈ Interfaces sfuConfig)).
Proof.
  unfold NewWebRTCTransportFactory. intros Hf.
  destruct (RegisterCodecs _ _ _) as [err|me]; [discriminate|].
  injection Hf as <-. simpl.
  pose proof (allowedInterfaces_empty sfuConfig) as Hempty.
  split.
  - case_bool_decide as Hsz; split; try done.
    + intros Hnil. apply Hempty in Hnil. lia.
    + intros _. apply Hempty. lia.
  - intros flt iface. case_bool_decide; [|done]. intros [= <-].
    by rewrite bool_decide_eq_true, allowedInterfaces_spec.
Qed.

Lemma tcpEnabled_spec networkTypes :
  tcpEnabled networkTypes = true ↔
  NetworkTypeTCP4 ∈ networkTypes ∨ NetworkTypeTCP6 ∈ networkTypes.
Proof.
  induction networkTypes as [|nt l IH]; simpl.
  - rewrite !elem_of_nil. split; [done|tauto].
  - rewrite !elem_of_cons. case_bool_decide as Hnt.
    + split; [|done]. intros _. destruct Hnt as [->| ->]; tauto.
    + rewrite IH. split; [tauto|]. intros [[?|?]|[?|?]]; try tauto; exfalso; apply Hnt; eauto.
Qed.

(** X19. The factory asks for an ephemeral UDP port range exactly when both
    configured ports are above zero, listens on TCP exactly when a TCP
    network type is among the network types, and installs the ICE TCP mux
    exactly when it listened and the listener came up. *)
Theorem transport_settings_follow_config
    iceServers sfuConfig networkTypes listen_err accept f :
  NewWebRTCTransportFactory iceServers sfuConfig networkTypes listen_err accept = inr f →
  (se_EphemeralUDPPortRange (f_settingEngine f)
     = Some (UDP_PortMin sfuConfig, UDP_PortMax sfuConfig) ↔
   0 < UDP_PortMin sfuConfig ∧ 0 < UDP_PortMax sfuConfig) ∧
  (se_EphemeralUDPPortRange (f_settingEngine f) = None ↔
   UDP_PortMin sfuConfig ≤ 0 ∨ UDP_PortMax sfuConfig ≤ 0) ∧
  (is_Some (se_ListenTCP (f_settingEngine f)) ↔
   NetworkTypeTCP4 ∈ networkTypes ∨ NetworkTypeTCP6 ∈ networkTypes) ∧
  (se_ICETCPMux (f_settingEngine f) = true ↔
   (NetworkTypeTCP4 ∈ networkTypes ∨ NetworkTypeTCP6 ∈ networkTypes) ∧ listen_err = None).
Proof.
  unfold NewWebRTCTransportFactory. intros Hf.
  destruct (RegisterCodecs _ _ _) as [err|me]; [discriminate|].
  injection Hf as <-. simpl. rewrite <- tcpEnabled_spec. split_and!.
  - repeat case_bool_decide; simpl; split; try done; try tauto; lia.
  - repeat case_bool_decide; simpl; split; try done; try tauto; lia.
  - destruct (tcpEnabled networkTypes); split; try done; intros H; try done.
  - destruct (tcpEnabled networkTypes), listen_err; split; try done; try tauto.
    all: by intros [].
Qed.

(** X17. [RegisterCodecs] panics only with an error the media engine
    answered; otherwise it has registered VP8 (payload type 96) as video and
    Opus (payload type 111, no feedback) as audio, in this order; VP8 always
    offers REMB and NACK "pli", and the generic NACK exactly when the jitter
    buffer is enabled. *)
Theorem RegisterCodecs_registers accept mediaEngine jitterBufferEnabled :
  match RegisterCodecs accept mediaEngine jitterBufferEnabled with
  | inl err =>
    ∃ codec kind, accept codec kind = Some err
  | inr mediaEngine' =>
    ∃ vp8 opus,
      mediaEngine' = mediaEngine ++ [(vp8, RTPCodecTypeVideo); (opus, RTPCodecTypeAudio)] ∧
      MimeType (rcp_capability vp8) = "video/VP8" ∧ rcp_PayloadType vp8 = 96 ∧
      rcp_PayloadType opus = 111 ∧ rcp_RTCPFeedback opus = [] ∧
      mkRTCPFeedback TypeRTCPFBGoogREMB "" ∈ rcp_RTCPFeedback vp8 ∧
      mkRTCPFeedback TypeRTCPFBNACK "pli" ∈ rcp_RTCPFeedback vp8 ∧
      (mkRTCPFeedback TypeRTCPFBNACK "" ∈ rcp_RTCPFeedback vp8 ↔ jitterBufferEnabled = true)
  end.
Proof.
  unfold RegisterCodecs.
  destruct (accept _ RTPCodecTypeVideo) as [err|] eqn:Hv; [eauto|].
  destruct (accept _ RTPCodecTypeAudio) as [err|] eqn:Ha; [eauto|].
  eexists _, _. split; [by rewrite <- app_assoc|]. simpl.
  split_and!; try done.
  - destruct jitterBufferEnabled; simpl; rewrite !elem_of_cons; tauto.
  - destruct jitterBufferEnabled; simpl; rewrite !elem_of_cons; tauto.
  - destruct jitterBufferEnabled; simpl; rewrite !elem_of_cons, elem_of_nil; split; try done.
    + tauto.
    + intros [[=]|[[=]|[]]].
Qed.

Ltac in_list :=
  rewrite ?elem_of_app, ?elem_of_cons, ?elem_of_nil.

Section ConstructionProperties.
Context {E : Type} `{!NetworkEngine E}.
Implicit Types (s : @State E).

(** X20. When [NewWebRTCTransport] fails, its last call is
    [peerConnection.Close()], made once; no track handler was registered and
    no closing goroutine started; the first error names the step that failed
    (creating the data channel, which only an initiator does, or initializing
    the signaller) and the error of [Close], if any, follows it. *)
Theorem construction_failure_closes_peer initiator (pc : E) a calls errs :
  NewWebRTCTransport_full initiator pc a = (calls, inl errs) →
  (∃ pre, calls = pre ++ [call_Close] ∧
          (call_Close ∉ pre) ∧ (call_OnTrack ∉ pre) ∧ (call_go_closer ∉ pre)) ∧
  (∃ err step,
     ((step = "create data channel" ∧ initiator = true ∧
       ans_CreateDataChannel a = Fail err) ∨
      (step = "initialize signaller" ∧ ans_NewSignaller a = Some err)) ∧
     errs = Annotated err step ::
            match ans_Close a with
            | Some e => [Annotated e "close peer connection"]
            | None => []
            end).
Proof.
  unfold NewWebRTCTransport_full, closePeer. intros Hfull.
  destruct initiator; [destruct (ans_CreateDataChannel a) as [dc|e] eqn:Hdc|];
    try (destruct (ans_NewSignaller a) as [e|] eqn:Hsg; [|discriminate]);
    injection Hfull as <- <-.
  - split.
    + exists [call_CreateDataChannel "data"; call_NewDataTransceiver (Some dc);
              call_NewSignaller true; call_OnICEGatheringStateChange].
      split; [done|]. split_and!; in_list; intros H; intuition discriminate.
    + exists e, "initialize signaller". split; [by right|done].
  - split.
    + exists [call_CreateDataChannel "data"].
      split; [done|]. split_and!; in_list; intros H; intuition discriminate.
    + exists e, "create data channel". split; [by left|done].
  - split.
    + exists [call_NewDataTransceiver None; call_NewSignaller false;
              call_OnICEGatheringStateChange].
      split; [done|]. split_and!; in_list; intros H; intuition discriminate.
    + exists e, "initialize signaller". split; [by right|done].
Qed.

(** X21. When [NewWebRTCTransport] succeeds, the signaller was initialized
    (and, for an initiator, the data channel created), the peer connection
    was not closed, a data channel was created exactly for an initiator (the
    data transceiver gets a nil channel otherwise), and the track handler was
    registered before the closing goroutine was started, both once. *)
Theorem construction_success initiator (pc : E) a calls s :
  NewWebRTCTransport_full initiator pc a = (calls, inr s) →
  s = NewWebRTCTransport initiator pc ∧
  ans_NewSignaller a = None ∧
  (initiator = true → ∃ dataChannel, ans_CreateDataChannel a = Ok dataChannel) ∧
  (call_Close ∉ calls) ∧
  (call_CreateDataChannel "data" ∈ calls ↔ initiator = true) ∧
  (call_NewDataTransceiver None ∈ calls ↔ initiator = false) ∧
  (∃ pre, calls = pre ++ [call_OnTrack; call_go_closer] ∧
          (call_OnTrack ∉ pre) ∧ (call_go_closer ∉ pre)).
Proof.
  unfold NewWebRTCTransport_full, closePeer. intros Hfull.
  destruct initiator; [destruct (ans_CreateDataChannel a) as [dc|e] eqn:Hdc; [|discriminate]|];
    (destruct (ans_NewSignaller a) as [e|] eqn:Hsg; [discriminate|]);
    injection Hfull as <- <-.
  - split_and!; try done; eauto.
    + in_list. intros H; intuition discriminate.
    + in_list. tauto.
    + in_list. split; [intros H; intuition discriminate|done].
    + exists [call_CreateDataChannel "data"; call_NewDataTransceiver (Some dc);
              call_NewSignaller true; call_OnICEGatheringStateChange].
      split; [done|]. split; in_list; intros H; intuition discriminate.
  - split_and!; try done.
    + in_list. intros H; intuition discriminate.
    + in_list. split; [intros H; intuition discriminate|done].
    + in_list. tauto.
    + exists [call_NewDataTransceiver None; call_NewSignaller false;
              call_OnICEGatheringStateChange].
      split; [done|]. split; in_list; intros H; intuition discriminate.
Qed.

(** X22. A transport the factory has made is always the initiator: it has
    created the data channel, and the first successful [AddTrack] on it asks
    the signaller to renegotiate, not for a transceiver. *)
Theorem factory_transport_is_initiator G f (npc : res E) a calls s :
  WebRTCTransportFactory_NewWebRTCTransport G f npc a = (calls, inr s) →
  (∃ pc, npc = Ok pc ∧ s = NewWebRTCTransport true pc) ∧
  Initiator (signaller s) = true ∧
  call_CreateDataChannel "data" ∈ calls ∧
  (∀ ssrc id streamId s',
     AddTrack ssrc id streamId s = (None, s') →
     signaller_calls (signaller s') = [Negotiate]).
Proof.
  unfold WebRTCTransportFactory_NewWebRTCTransport. intros Hf.
  destruct npc as [pc|err]; [|discriminate].
  destruct (NewWebRTCTransport_full true pc a) as [calls0 r] eqn:Hfull.
  injection Hf as <- ->.
  unfold NewWebRTCTransport_full, closePeer in Hfull.
  destruct (ans_CreateDataChannel a) as [dc|e]; [|discriminate].
  destruct (ans_NewSignaller a) as [e|]; [discriminate|].
  injection Hfull as <- <-.
  split_and!; try done; eauto.
  - in_list. tauto.
  - intros ssrc id streamId s' Hadd.
    by destruct (AddTrack_ok_state _ _ _ _ _ Hadd) as (sender & pc1 & _ & ->).
Qed.

(** X23. When the factory fails to make a transport, it has closed the peer
    connection exactly if it had got one; without a peer connection the only
    error is that of [NewPeerConnection], annotated; and no closing goroutine
    was started. *)
Theorem factory_failure_closes_what_it_made G f (npc : res E) a calls errs :
  WebRTCTransportFactory_NewWebRTCTransport G f npc a = (calls, inl errs) →
  (call_Close ∈ calls ↔ ∃ pc, npc = Ok pc) ∧
  (∀ err, npc = Fail err → errs = [Annotated err "new peer connection"]) ∧
  call_go_closer ∉ calls.
Proof.
  unfold WebRTCTransportFactory_NewWebRTCTransport. intros Hf.
  destruct npc as [pc|err].
  - destruct (NewWebRTCTransport_full true pc a) as [calls0 r] eqn:Hfull.
    injection Hf as <- ->.
    unfold NewWebRTCTransport_full, closePeer in Hfull.
    destruct (ans_CreateDataChannel a) as [dc|e];
      [destruct (ans_NewSignaller a) as [e|]; [|discriminate]|];
      injection Hfull as <- <-.
    all: split_and!; try done; in_list; try (intros H; intuition discriminate).
    all: split; [eauto|tauto].
  - injection Hf as <- <-. split_and!.
    + in_list. split; [intros H; intuition discriminate|by intros [? [=]]].
    + by intros ? [= <-].
    + in_list. intros H; intuition discriminate.
Qed.

End ConstructionProperties.
(** ** The further properties at work on the simulated engine *)

Lemma WriteRTP_engine_error_witness :
  (WriteRTP (mkPacket 1001 200 []) (sim_with_track sim_broken_send)).1
  = (0, Some (Annotated (engine_error "srtp") "write rtp")).
Proof.
  refine (proj1 (WriteRTP_engine_error (sim_with_track sim_broken_send) (mkPacket 1001 200 [])
                   _ (engine_error "srtp") _ _ _)).
  - vm_compute. reflexivity.
  - reflexivity.
  - discriminate.
Defined.

Lemma RemoveTrack_success_witness :
  ∃ pta,
    localTracks (sim_with_track sim_idle) !! 1001 = Some pta ∧
    localTracks (RemoveTrack 1001 (sim_with_track sim_idle)).2
      = delete 1001 (localTracks (sim_with_track sim_idle)) ∧
    signaller_calls (signaller (RemoveTrack 1001 (sim_with_track sim_idle)).2)
      = signaller_calls (signaller (sim_with_track sim_idle)) ++ [Negotiate] ∧
    wg (RemoveTrack 1001 (sim_with_track sim_idle)).2 = wg (sim_with_track sim_idle).
Proof.
  destruct (RemoveTrack_success (sim_with_track sim_idle) 1001
              (RemoveTrack 1001 (sim_with_track sim_idle)).2)
    as (pta & Hl & _ & Hdel & Hcalls & Hwg & _).
  - vm_compute. reflexivity.
  - exists pta. exact (conj Hl (conj Hdel (conj Hcalls Hwg))).
Defined.

Lemma AddTrack_success_witness :
  ∃ sender lti,
    localTracks (AddTrack 1001 "v0" "s0" (NewWebRTCTransport false sim_idle)).2
      = <[1001 := lti]> (localTracks (NewWebRTCTransport false sim_idle)) ∧
    lti_sender lti = sender ∧
    feedbackPumps (AddTrack 1001 "v0" "s0" (NewWebRTCTransport false sim_idle)).2
      = feedbackPumps (NewWebRTCTransport false sim_idle) ++ [mkfeedbackPump sender FP_read] ∧
    signaller_calls (signaller (AddTrack 1001 "v0" "s0" (NewWebRTCTransport false sim_idle)).2)
      = signaller_calls (signaller (NewWebRTCTransport false sim_idle))
        ++ [SendTransceiverRequest RTPCodecTypeVideo RTPTransceiverDirectionRecvonly].
Proof.
  destruct (AddTrack_success (NewWebRTCTransport false sim_idle) 1001 "v0" "s0"
              (AddTrack 1001 "v0" "s0" (NewWebRTCTransport false sim_idle)).2)
    as (sender & lti & Hl & Hs & _ & _ & _ & Hfps & Hcalls & _).
  - vm_compute. reflexivity.
  - exists sender, lti. exact (conj Hl (conj Hs (conj Hfps Hcalls))).
Defined.

Lemma AddTrack_replaces_registered_ssrc_witness :
  ∃ lti,
    localTracks (AddTrack 1001 "v1" "s1" (sim_with_track sim_idle)).2 !! 1001 = Some lti ∧
    ID (lti_trackInfo lti) = "v1" ∧ StreamID (lti_trackInfo lti) = "s1" ∧
    size (localTracks (AddTrack 1001 "v1" "s1" (sim_with_track sim_idle)).2)
      = size (localTracks (sim_with_track sim_idle)) ∧
    length (feedbackPumps (AddTrack 1001 "v1" "s1" (sim_with_track sim_idle)).2)
      = S (length (feedbackPumps (sim_with_track sim_idle))) ∧
    wg (AddTrack 1001 "v1" "s1" (sim_with_track sim_idle)).2
      = S (wg (sim_with_track sim_idle)).
Proof.
  refine (AddTrack_replaces_registered_ssrc (sim_with_track sim_idle) 1001 "v1" "s1"
            (AddTrack 1001 "v1" "s1" (sim_with_track sim_idle)).2 _ _ _).
  - vm_compute. reflexivity.
  - vm_compute. reflexivity.
Defined.

Lemma AddTrack_RemoveTrack_round_trip_witness :
  localTracks (RemoveTrack 1001 (sim_with_track sim_idle)).2
    = localTracks (NewWebRTCTransport true sim_idle) ∧
  wg (RemoveTrack 1001 (sim_with_track sim_idle)).2
    = S (wg (NewWebRTCTransport true sim_idle)).
Proof.
  destruct (AddTrack_RemoveTrack_round_trip (NewWebRTCTransport true sim_idle) 1001 "v0" "s0"
              (sim_with_track sim_idle))
    as (sender & pc1 & _ & _ & _ & Hl & _ & Hwg).
  - reflexivity.
  - vm_compute. reflexivity.
  - exact (conj Hl Hwg).
Defined.

Lemma AddTrack_then_WriteRTP_witness :
  (WriteRTP (mkPacket 1001 200 []) (sim_with_track sim_idle)).1 =
    match (track_WriteRTP (mkTrackLocalStaticRTP (mkRTPCodecCapability MimeTypeVP8) "v0" "s0")
                          (mkPacket 1001 200 [])
                          (peerConnection (sim_with_track sim_idle))).1 with
    | None => (MarshalSize (mkPacket 1001 200 []), None)
    | Some e => if bool_decide (errors_Cause e = io_ErrClosedPipe) then (0, None)
                else (0, Some (Annotated e "write rtp"))
    end.
Proof.
  refine (proj2 (AddTrack_then_WriteRTP (NewWebRTCTransport true sim_idle) 1001 "v0" "s0"
                   (sim_with_track sim_idle) (mkPacket 1001 200 []) _ _)).
  - vm_compute. reflexivity.
  - reflexivity.
Defined.

Lemma listings_have_distinct_SSRCs_witness :
  ∃ l, LocalTracks (sim_with_track sim_idle) = Some l ∧
       NoDup (SSRC <$> l) ∧
       ∀ ssrc, ssrc ∈ SSRC <$> l ↔ is_Some (localTracks (sim_with_track sim_idle) !! ssrc).
Proof.
  eexists. split; [vm_compute; reflexivity|].
  refine (proj1 (listings_have_distinct_SSRCs [CallAddTrack 1001 "v0" "s0"] true sim_idle
                   (sim_with_track sim_idle) _) _ _).
  - vm_compute. reflexivity.
  - vm_compute. reflexivity.
Defined.

Lemma channels_close_in_order_witness :
  ∃ s, run close_when_idle (NewWebRTCTransport true sim_idle) = Some s ∧
       closer s = CL_exited ∧
       (chan_closed (trackEventsCh s) = true → chan_closed (rtcpCh s) = true) ∧
       (chan_closed (rtcpCh s) = true → chan_closed (rtpCh s) = true) ∧
       (chan_closed (rtpCh s) = true →
        dataTransceiver_closed s = true ∧ CloseChannel_closed (signaller s) = true) ∧
       (chan_closed (trackEventsCh s) = true ↔ closer s = CL_exited).
Proof.
  eexists. split; [vm_compute; reflexivity|]. split; [reflexivity|].
  eapply (channels_close_in_order close_when_idle true sim_idle).
  vm_compute. reflexivity.
Defined.

Lemma closed_channel_receives_nothing_witness :
  ∃ s s', run close_when_idle (NewWebRTCTransport true sim_idle) = Some s ∧
          run [EngineOnTrack sim_track 0%nat; RunRemote 0;
               CallWriteRTCP [[1]]; CallAddTrack 1001 "v0" "s0"] s = Some s' ∧
          chan_closed (rtpCh s) = true ∧
          ((chan_closed (rtpCh s) = true → rtpCh s' = rtpCh s) ∧
           (chan_closed (rtcpCh s) = true → rtcpCh s' = rtcpCh s) ∧
           (chan_closed (trackEventsCh s) = true → trackEventsCh s' = trackEventsCh s)).
Proof.
  eexists. eexists. split; [vm_compute; reflexivity|].
  split; [vm_compute; reflexivity|]. split; [reflexivity|].
  eapply (closed_channel_receives_nothing
            [EngineOnTrack sim_track 0%nat; RunRemote 0;
             CallWriteRTCP [[1]]; CallAddTrack 1001 "v0" "s0"]).
  vm_compute. reflexivity.
Defined.



Lemma handleTrack_forwards_and_cleans_up_witness :
  ∃ s',
    run (replicate 11 (RunRemote 0)) (sim_delivered sim_two_packets) = Some s' ∧
    panicked s' = None ∧ remote_at 0 sim_track RP_exited s' ∧
    chan_received (rtpCh s') = [mkPacket 1001 200 []; mkPacket 1001 120 []] ∧
    wg s' = wg (sim_delivered sim_two_packets) ∧
    RTPPacketsReceived (metrics s') = 2 ∧
    WebRTCTracksActive (metrics s') = 0.
Proof.
  edestruct (handleTrack_forwards_and_cleans_up (sim_delivered sim_two_packets) 0
               (mkremoteThread sim_track 0%nat HT_entry)
               [mkPacket 1001 200 []; mkPacket 1001 120 []])
    as (s' & Hrun & Hp & Hat & _ & Hrtp & Hwg & _ & _ & Hn & _ & _ & Hactive).
  - reflexivity.
  - reflexivity.
  - reflexivity.
  - reflexivity.
  - reflexivity.
  - eapply reads_yield_more; [vm_compute; reflexivity|].
    eapply reads_yield_more; [vm_compute; reflexivity|].
    eapply reads_yield_end. vm_compute. reflexivity.
  - exists s'. split; [exact Hrun|]. split; [exact Hp|]. split; [exact Hat|].
    split; [exact Hrtp|]. split; [exact Hwg|]. split; [exact Hn|exact Hactive].
Defined.

Lemma feedback_pump_forwards_witness :
  ∃ n s',
    run (replicate n (RunFeedback 0)) (sim_with_track sim_feedback_batches) = Some s' ∧
    panicked s' = None ∧ feedback_at 0 0%nat FP_exited s' ∧
    S (wg s') = wg (sim_with_track sim_feedback_batches) ∧
    chan_received (rtcpCh s') = [[1]; [2]; [3]] ∧
    RTCPPacketsReceived (metrics s') = 3.
Proof.
  edestruct (feedback_pump_forwards 0%nat
               (peerConnection (sim_with_track sim_feedback_batches))
               [[[1]]; [[2]; [3]]])
    with (s := sim_with_track sim_feedback_batches) (k := 0%nat)
    as (n & s' & Hrun & Hp & Hat & _ & Hwg & Hrtcp & _ & Hn & _).
  - eapply feedback_yields_more; [vm_compute; reflexivity|].
    eapply feedback_yields_more; [vm_compute; reflexivity|].
    eapply feedback_yields_end. vm_compute. reflexivity.
  - reflexivity.
  - reflexivity.
  - eexists. split; [reflexivity|]. split; reflexivity.
  - vm_compute. lia.
  - reflexivity.
  - exists n, s'. split; [exact Hrun|]. split; [exact Hp|]. split; [exact Hat|].
    split; [exact Hwg|]. split; [exact Hrtcp|exact Hn].
Defined.

Lemma interface_filter_follows_config_witness :
  ∃ f, NewWebRTCTransportFactory [] sim_config [NetworkTypeUDP4; NetworkTypeTCP4] None
                                 (λ _ _, None) = inr f ∧
       ∀ flt iface, se_InterfaceFilter (f_settingEngine f) = Some flt →
                    (flt iface = true ↔ iface ∈ Interfaces sim_config).
Proof.
  eexists. split; [reflexivity|].
  refine (proj2 (interface_filter_follows_config [] sim_config
                   [NetworkTypeUDP4; NetworkTypeTCP4] None (λ _ _, None) _ _)).
  reflexivity.
Defined.

Lemma transport_settings_follow_config_witness :
  ∃ f, NewWebRTCTransportFactory [] sim_config [NetworkTypeUDP4; NetworkTypeTCP4] None
                                 (λ _ _, None) = inr f ∧
       (se_EphemeralUDPPortRange (f_settingEngine f)
          = Some (UDP_PortMin sim_config, UDP_PortMax sim_config) ↔
        0 < UDP_PortMin sim_config ∧ 0 < UDP_PortMax sim_config) ∧
       (se_ICETCPMux (f_settingEngine f) = true ↔
        (NetworkTypeTCP4 ∈ [NetworkTypeUDP4; NetworkTypeTCP4]
         ∨ NetworkTypeTCP6 ∈ [NetworkTypeUDP4; NetworkTypeTCP4])
        ∧ None = (None : option error)).
Proof.
  eexists. split; [reflexivity|].
  edestruct (transport_settings_follow_config [] sim_config
               [NetworkTypeUDP4; NetworkTypeTCP4] None (λ _ _, None))
    as (Hudp & _ & _ & Hmux).
  - reflexivity.
  - exact (conj Hudp Hmux).
Defined.

Lemma construction_failure_closes_peer_witness :
  ∃ calls errs,
    NewWebRTCTransport_full true sim_idle sim_answers_no_signaller = (calls, inl errs) ∧
    (∃ pre, calls = pre ++ [call_Close] ∧
            (call_Close ∉ pre) ∧ (call_OnTrack ∉ pre) ∧ (call_go_closer ∉ pre)).
Proof.
  eexists. eexists. split; [reflexivity|].
  refine (proj1 (construction_failure_closes_peer true sim_idle sim_answers_no_signaller
                   _ _ _)).
  reflexivity.
Defined.

Lemma construction_success_witness :
  ∃ calls s,
    NewWebRTCTransport_full false sim_idle sim_answers_ok = (calls, inr s) ∧
    s = NewWebRTCTransport false sim_idle ∧
    (call_Close ∉ calls) ∧
    (call_NewDataTransceiver None ∈ calls ↔ false = false).
Proof.
  eexists. eexists. split; [reflexivity|].
  edestruct (construction_success false sim_idle sim_answers_ok)
    as (Hs & _ & _ & Hclose & _ & Hnil & _).
  - reflexivity.
  - exact (conj Hs (conj Hclose Hnil)).
Defined.

Lemma factory_transport_is_initiator_witness :
  ∃ calls s,
    WebRTCTransportFactory_NewWebRTCTransport id sim_factory (Ok sim_idle) sim_answers_ok
      = (calls, inr s) ∧
    Initiator (signaller s) = true ∧
    call_CreateDataChannel "data" ∈ calls ∧
    (∀ ssrc id streamId s',
       AddTrack ssrc id streamId s = (None, s') →
       signaller_calls (signaller s') = [Negotiate]).
Proof.
  eexists. eexists. split; [reflexivity|].
  refine (proj2 (factory_transport_is_initiator id sim_factory (Ok sim_idle) sim_answers_ok
                   _ _ _)).
  reflexivity.
Defined.

Lemma factory_failure_closes_what_it_made_witness :
  ∃ calls errs,
    WebRTCTransportFactory_NewWebRTCTransport
      id sim_factory (Fail (engine_error "no ice") : res SimEngine) sim_answers_ok
      = (calls, inl errs) ∧
    (∀ err, (Fail (engine_error "no ice") : res SimEngine) = Fail err →
            errs = [Annotated err "new peer connection"]) ∧
    call_go_closer ∉ calls.
Proof.
  eexists. eexists. split; [reflexivity|].
  refine (proj2 (factory_failure_closes_what_it_made id sim_factory
                   (Fail (engine_error "no ice")) sim_answers_ok _ _ _)).
  reflexivity.
Defined.
